(** * Flipper RF Lab: analysis core, shallow embedding and checked properties

    The C sources are embedded function by function.  Machine integers are
    values of [Z]; every place where the C code converts to a narrower or
    to an unsigned type is written out with the wrap-around functions of
    module [CInt].  The target is a 32-bit little-endian ARM core: [int] is
    32 bits wide, conversions to signed types wrap, [>>] on signed values is
    an arithmetic shift and signed division truncates toward zero. *)

From Stdlib Require Import ZArith List Bool Lia QArith Qabs.
Import ListNotations.
Local Open Scope Z_scope.

(* ================================================================= *)
(** * Part I: the program                                             *)
(* ================================================================= *)

(** ** Machine integers *)

Module CInt.

(** Conversion to an unsigned type of [w] bits. *)
Definition uwrap (w x : Z) : Z := x mod 2 ^ w.

(** Conversion to a signed (two's complement) type of [w] bits. *)
Definition swrap (w x : Z) : Z := (x + 2 ^ (w - 1)) mod 2 ^ w - 2 ^ (w - 1).

Definition u8  : Z -> Z := uwrap 8.
Definition u16 : Z -> Z := uwrap 16.
Definition u32 : Z -> Z := uwrap 32.
Definition u64 : Z -> Z := uwrap 64.
Definition s8  : Z -> Z := swrap 8.
Definition s16 : Z -> Z := swrap 16.
Definition s32 : Z -> Z := swrap 32.
Definition s64 : Z -> Z := swrap 64.

(** Range predicates of the C types. *)
Definition is_u8  (x : Z) : Prop := 0 <= x < 256.
Definition is_u16 (x : Z) : Prop := 0 <= x < 65536.
Definition is_s32 (x : Z) : Prop := - 2147483648 <= x < 2147483648.

(** [a[i] = v] on an array held as a list; a write outside the list is
    undefined behaviour in C and leaves the list unchanged here. *)
Fixpoint upd {A : Type} (i : nat) (v : A) (l : list A) : list A :=
  match l, i with
  | [], _ => []
  | _ :: t, O => v :: t
  | h :: t, S i' => h :: upd i' v t
  end.

Definition zsum (l : list Z) : Z := fold_right Z.add 0 l.

End CInt.
Import CInt.

(** ** core/math/fixed_point.h, core/math/fixed_point.c *)

Module fixed_point.

Definition FIXED_FRACTIONAL_BITS : Z := 16.
Definition FIXED_SCALE : Z := Z.shiftl 1 FIXED_FRACTIONAL_BITS.
Definition FIXED_ONE : Z := FIXED_SCALE.
Definition FIXED_TWO : Z := Z.shiftl FIXED_SCALE 1.
Definition FIXED_MAX : Z := 0x7FFFFFFF.
(** [#define FIXED_MIN 0x80000000]: an unsigned constant; every use in a
    [fixed_t] context converts it to the most negative 32-bit value. *)
Definition FIXED_MIN : Z := s32 0x80000000.

Definition INT_TO_FIXED (x : Z) : Z := s32 (Z.shiftl x FIXED_FRACTIONAL_BITS).

(** [FLOAT_TO_FIXED(0.94f)] and [FLOAT_TO_FIXED(0.693147f)]: the single
    precision constant times 65536, truncated (compile-time constants). *)
Definition FIXED_0_94 : Z := 61603.
Definition FIXED_LN2 : Z := 45426.

Definition fixed_abs (x : Z) : Z := if x <? 0 then s32 (- x) else x.

Definition fixed_mul (a b : Z) : Z :=
  let temp := s64 (a * b) in
  let temp := s64 (temp + (if temp >=? 0
                           then Z.shiftr FIXED_SCALE 1
                           else - Z.shiftr FIXED_SCALE 1)) in
  s32 (Z.shiftr temp FIXED_FRACTIONAL_BITS).

Definition fixed_div (a b : Z) : Z :=
  if b =? 0 then
    (if a >=? 0 then FIXED_MAX else FIXED_MIN)
  else
    let temp := s64 (Z.shiftl a FIXED_FRACTIONAL_BITS) in
    let temp := if temp >=? 0
                then s64 (temp + Z.shiftr b 1)
                else s64 (temp - Z.shiftr b 1) in
    s32 (Z.quot temp b).

(** The Newton-Raphson loop of [fixed_sqrt]; [iters] is the number of
    iterations still allowed by [for(i = 0; i < 8; i++)].  On [break] the
    previous guess is the one returned. *)
Fixpoint fixed_sqrt_loop (iters : nat) (x guess : Z) : Z :=
  match iters with
  | O => guess
  | S iters' =>
      let div_result := fixed_div x guess in
      let new_guess := Z.shiftr (s32 (guess + div_result)) 1 in
      if fixed_abs (s32 (new_guess - guess)) <? 16 then guess
      else fixed_sqrt_loop iters' x new_guess
  end.

Definition fixed_sqrt (x : Z) : Z :=
  if x <=? 0 then 0
  else
    let guess := Z.shiftr x 1 in
    let guess := if guess =? 0 then FIXED_ONE else guess in
    fixed_sqrt_loop 8 x guess.

(** [while(y >= FIXED_TWO) { y >>= 1; int_part++; }].  A 32-bit value is
    below [FIXED_TWO] after at most 14 halvings; [fuel] only makes the
    recursion structural. *)
Fixpoint fixed_log_reduce (fuel : nat) (y int_part : Z) : Z * Z :=
  match fuel with
  | O => (y, int_part)
  | S fuel' =>
      if y >=? FIXED_TWO
      then fixed_log_reduce fuel' (Z.shiftr y 1) (s32 (int_part + 1))
      else (y, int_part)
  end.

Definition fixed_log (x : Z) : Z :=
  if x <=? 0 then FIXED_MIN
  else
    let '(y, int_part) := fixed_log_reduce 32 x 0 in
    let frac_part := fixed_mul (s32 (y - FIXED_ONE)) FIXED_0_94 in
    let log2_result := s32 (INT_TO_FIXED int_part + frac_part) in
    fixed_mul log2_result FIXED_LN2.

(** [FLOAT_TO_FIXED(11.0f)] and [FLOAT_TO_FIXED(-11.0f)]. *)
Definition FIXED_11 : Z := 720896.
Definition FIXED_MINUS_11 : Z := -720896.

(** The Taylor loop of [fixed_exp], [for(n = 1; n < 12; n++)]: [steps] is
    the number of iterations left, [k] the loop counter. *)
Fixpoint fixed_exp_loop (steps : nat) (k x result x_n : Z) : Z :=
  match steps with
  | O => result
  | S steps' =>
      let term := fixed_div x_n (INT_TO_FIXED k) in
      let result' := s32 (result + term) in
      let x_n' := fixed_mul x_n x in
      if fixed_abs term <? 16 then result'
      else fixed_exp_loop steps' (k + 1) x result' x_n'
  end.

Definition fixed_exp (x : Z) : Z :=
  if x =? 0 then FIXED_ONE
  else if x >? FIXED_11 then FIXED_MAX
  else if x <? FIXED_MINUS_11 then 0
  else fixed_exp_loop 11 1 x FIXED_ONE x.

Definition fixed_pow (base exp : Z) : Z :=
  if base =? 0 then 0
  else if exp =? 0 then FIXED_ONE
  else fixed_exp (fixed_mul exp (fixed_log base)).

Definition fixed_add_sat (a b : Z) : Z :=
  let result := s32 (a + b) in
  if (b >? 0) && (result <? a) then FIXED_MAX
  else if (b <? 0) && (result >? a) then FIXED_MIN
  else result.

Definition fixed_sub_sat (a b : Z) : Z :=
  let result := s32 (a - b) in
  if (b <? 0) && (result <? a) then FIXED_MAX
  else if (b >? 0) && (result >? a) then FIXED_MIN
  else result.

(** In [fixed_mul_sat] the test [temp < FIXED_MIN] compares the 64-bit
    product with the macro itself: [0x80000000] is an [unsigned int]
    constant, which the comparison converts to the 64-bit value
    2147483648.  Only the [return] converts it to [fixed_t]. *)
Definition fixed_mul_sat (a b : Z) : Z :=
  let temp := s64 (a * b) in
  let temp := Z.shiftr temp FIXED_FRACTIONAL_BITS in
  if temp >? FIXED_MAX then FIXED_MAX
  else if temp <? 0x80000000 then FIXED_MIN
  else s32 temp.

End fixed_point.
Import fixed_point.

(** ** core/math/statistics.h, core/math/statistics.c *)

Module statistics.

Definition HISTOGRAM_MAX_BINS : Z := 256.

(** [WelfordState_t]: [n] is a [uint32_t], the other fields are
    [fixed_t]. *)
Record WelfordState_t : Type := mkWelford {
  n : Z;
  mean : Z;
  m2 : Z;
  wf_min_val : Z;
  wf_max_val : Z;
  variance : Z;
  std_dev : Z
}.

Definition welford_init : WelfordState_t :=
  mkWelford 0 0 0 FIXED_MAX FIXED_MIN 0 0.

(** [delta / state->n] divides a [fixed_t] by a [uint32_t]: the usual
    arithmetic conversions turn [delta] into an unsigned 32-bit value,
    the quotient is unsigned, and [+=] converts the unsigned sum back to
    [fixed_t]. *)
Definition welford_add_sample (state : WelfordState_t) (x : Z)
  : WelfordState_t :=
  let n' := u32 (n state + 1) in
  let min' := if x <? wf_min_val state then x else wf_min_val state in
  let max' := if x >? wf_max_val state then x else wf_max_val state in
  let delta := s32 (x - mean state) in
  let mean' := s32 (u32 (mean state) + u32 delta / n') in
  let delta2 := s32 (x - mean') in
  let m2' := s32 (m2 state + fixed_mul delta delta2) in
  mkWelford n' mean' m2' min' max' (variance state) (std_dev state).

Definition welford_get_mean (state : WelfordState_t) : Z := mean state.

(** [state->m2 / (state->n - 1)] is again an unsigned division. *)
Definition welford_get_variance (state : WelfordState_t) : Z :=
  if n state <? 2 then 0
  else s32 (u32 (m2 state) / u32 (n state - 1)).

(** The accumulator after feeding the samples [xs] in order. *)
Definition welford_run (xs : list Z) : WelfordState_t :=
  fold_left welford_add_sample xs welford_init.

(** [Histogram_t]: [bins] is [uint16_t[256]], [num_bins] and [peak_bin]
    are [uint16_t], [total_samples] and [peak_count] are [uint32_t]. *)
Record Histogram_t : Type := mkHistogram {
  bins : list Z;
  num_bins : Z;
  min_val : Z;
  max_val : Z;
  bin_width : Z;
  total_samples : Z;
  peak_bin : Z;
  peak_count : Z
}.

(** [histogram_init]; [None] is the division by zero of
    [(max_val - min_val) / hist->num_bins] when [num_bins] is 0. *)
Definition histogram_init (num_bins0 min_val0 max_val0 : Z)
  : option Histogram_t :=
  let nb := if num_bins0 <? HISTOGRAM_MAX_BINS
            then num_bins0 else HISTOGRAM_MAX_BINS in
  if nb =? 0 then None
  else
    let bw := s32 (Z.quot (s32 (max_val0 - min_val0)) nb) in
    let bw := if bw =? 0 then FIXED_ONE else bw in
    Some (mkHistogram (repeat 0 256) nb min_val0 max_val0 bw 0 0 0).

Definition histogram_add (hist : Histogram_t) (value : Z) : Histogram_t :=
  if (value <? min_val hist) || (value >? max_val hist) then hist
  else
    let bin := u16 (s32 (Z.quot (s32 (value - min_val hist))
                                (bin_width hist))) in
    let bin := if bin >=? num_bins hist
               then u16 (num_bins hist - 1) else bin in
    let count' := u16 (nth (Z.to_nat bin) (bins hist) 0 + 1) in
    let bins' := upd (Z.to_nat bin) count' (bins hist) in
    let total' := u32 (total_samples hist + 1) in
    if count' >? peak_count hist
    then mkHistogram bins' (num_bins hist) (min_val hist) (max_val hist)
                     (bin_width hist) total' bin count'
    else mkHistogram bins' (num_bins hist) (min_val hist) (max_val hist)
                     (bin_width hist) total' (peak_bin hist)
                     (peak_count hist).

(** [hist->bins[i] = (hist->bins[i] * FIXED_SCALE) / hist->total_samples]
    for [i < num_bins]: the product is an [int], the division is unsigned
    and the result is stored in a [uint16_t]. *)
Fixpoint histogram_normalize_bins (k : nat) (total : Z) (l : list Z)
  : list Z :=
  match k, l with
  | S k', b :: t =>
      u16 (u32 (s32 (b * FIXED_SCALE)) / total)
      :: histogram_normalize_bins k' total t
  | _, _ => l
  end.

Definition histogram_normalize (hist : Histogram_t) : Histogram_t :=
  if total_samples hist =? 0 then hist
  else
    mkHistogram
      (histogram_normalize_bins (Z.to_nat (num_bins hist))
                                (total_samples hist) (bins hist))
      (num_bins hist) (min_val hist) (max_val hist) (bin_width hist)
      (total_samples hist) (peak_bin hist) (peak_count hist).

(** The loop of [histogram_get_percentile]: [k] bins are left to visit,
    [i] is the index of the first of them, [cumulative] the running
    [uint32_t] sum. *)
Fixpoint percentile_scan (k : nat) (i cumulative target : Z) (l : list Z)
  : option Z :=
  match k, l with
  | S k', b :: t =>
      let cumulative' := u32 (cumulative + b) in
      if cumulative' >=? target then Some i
      else percentile_scan k' (i + 1) cumulative' target t
  | _, _ => None
  end.

Definition histogram_get_percentile (hist : Histogram_t) (percentile : Z)
  : Z :=
  let target := u32 (total_samples hist * percentile) / 100 in
  match percentile_scan (Z.to_nat (num_bins hist)) 0 0 target (bins hist) with
  | Some i => i
  | None => u16 (num_bins hist - 1)
  end.

Definition histogram_get_mode (hist : Histogram_t) : Z :=
  s32 (s32 (min_val hist + s32 (peak_bin hist * bin_width hist))
       + Z.quot (bin_width hist) 2).

Definition histogram_get_median (hist : Histogram_t) : Z :=
  let median_bin := histogram_get_percentile hist 50 in
  s32 (s32 (min_val hist + s32 (median_bin * bin_width hist))
       + Z.quot (bin_width hist) 2).

(** [stats_mean]: the sum is a [fixed_t], the count a [uint32_t], so the
    division is unsigned. *)
Definition stats_mean (data : list Z) : Z :=
  let n := Z.of_nat (length data) in
  if n =? 0 then 0
  else
    let sum := fold_left (fun s x => s32 (s + x)) data 0 in
    s32 (u32 sum / n).

Definition stats_variance (data : list Z) : Z :=
  let n := Z.of_nat (length data) in
  if n <? 2 then 0
  else
    let mean := stats_mean data in
    let sum_sq :=
      fold_left (fun s x => let diff := s32 (x - mean) in
                            s32 (s + fixed_mul diff diff)) data 0 in
    s32 (u32 sum_sq / (n - 1)).

(** [stats_range]: largest minus smallest element, 0 for no data. *)
Definition stats_range (data : list Z) : Z :=
  match data with
  | [] => 0
  | x0 :: rest =>
      let mn := fold_left (fun m x => if x <? m then x else m) rest x0 in
      let mx := fold_left (fun m x => if x >? m then x else m) rest x0 in
      s32 (mx - mn)
  end.

(** One inner pass of the bubble sort in [stats_median]: [k] adjacent
    pairs are compared from the front, the larger element moving up. *)
Fixpoint bubble_pass (k : nat) (l : list Z) : list Z :=
  match k, l with
  | S k', a :: b :: t =>
      if a >? b then b :: bubble_pass k' (a :: t)
      else a :: bubble_pass k' (b :: t)
  | _, _ => l
  end.

(** The outer loop, [for(i = 0; i < n - 1; i++)] with the inner bound
    [n - i - 1]: [passes] passes are left and the next one compares
    [passes] pairs. *)
Fixpoint bubble_sort (passes : nat) (l : list Z) : list Z :=
  match passes with
  | O => l
  | S p => bubble_sort p (bubble_pass (S p) l)
  end.

(** [stats_median] returns the median and leaves the array sorted. *)
Definition stats_median (data : list Z) : Z * list Z :=
  match data with
  | [] => (0, data)
  | [x] => (x, data)
  | _ =>
      let n := length data in
      let sorted := bubble_sort (n - 1) data in
      if Nat.eqb (Nat.modulo n 2) 0
      then (Z.quot (s32 (nth (n / 2 - 1) sorted 0 + nth (n / 2) sorted 0)) 2,
            sorted)
      else (nth (n / 2) sorted 0, sorted)
  end.

End statistics.
Import statistics.

(** ** Notions of the specification for the statistics library

    These definitions follow the words of the specification, not the code:
    they are what the code is compared with. *)

Module statistics_spec.

Local Open Scope Q_scope.

(** The real number a Q15.16 word stands for, and one unit in the last
    place. *)
Definition fixed_value (r : Z) : Q := inject_Z r / inject_Z 65536.
Definition ulp : Q := 1 / inject_Z 65536.

Definition qsum (l : list Q) : Q := fold_right Qplus 0 l.

(** Exact mean [(sum of xi) / n]. *)
Definition exact_mean (vs : list Q) : Q :=
  qsum vs / inject_Z (Z.of_nat (length vs)).

(** Exact sample variance [(sum of (xi - mean)^2) / (n - 1)]. *)
Definition exact_variance (vs : list Q) : Q :=
  let mu := exact_mean vs in
  qsum (map (fun v => (v - mu) * (v - mu)) vs)
  / inject_Z (Z.of_nat (length vs) - 1).

(** "to within +/-1 ULP of Q15.16 round-off". *)
Definition within_one_ulp (stored : Z) (exact : Q) : Prop :=
  Qabs (fixed_value stored - exact) <= ulp.

Local Close Scope Q_scope.

(** Every sample is at least the mean stored when it arrives, so that
    every [delta] of [welford_add_sample] is non-negative. *)
Fixpoint samples_not_below_mean (state : WelfordState_t) (xs : list Z)
  : Prop :=
  match xs with
  | [] => True
  | x :: rest =>
      mean state <= x /\
      samples_not_below_mean (welford_add_sample state x) rest
  end.

(** "the bin indexed by peak_bin holds count peak_count, peak_count is
    the maximum count over all bins, and the sum of all bin counts equals
    total_samples". *)
Definition hist_invariant (hist : Histogram_t) : Prop :=
  nth (Z.to_nat (peak_bin hist)) (bins hist) 0 = peak_count hist /\
  (forall i : nat, nth i (bins hist) 0 <= peak_count hist) /\
  zsum (bins hist) = total_samples hist.

(** "reachable by any sequence of histogram operations": the operations
    that write a histogram are [histogram_init], [histogram_add] and
    [histogram_normalize]. *)
Inductive hist_reachable : Histogram_t -> Prop :=
| reach_init : forall nb lo hi h,
    is_u16 nb -> is_s32 lo -> is_s32 hi ->
    histogram_init nb lo hi = Some h -> hist_reachable h
| reach_add : forall h v,
    hist_reachable h -> is_s32 v -> hist_reachable (histogram_add h v)
| reach_normalize : forall h,
    hist_reachable h -> hist_reachable (histogram_normalize h).

End statistics_spec.
Import statistics_spec.

(** ** storage/compression.h, storage/compression.c

    Byte buffers are lists of [Z] with entries in [0, 256); the returned
    length of the C functions is the length of the returned list. *)

Module compression.

Definition COMPRESSION_MAX_BLOCK_SIZE : Z := 1024.
Definition RLE_MAX_RUN_LENGTH : Z := 255.

(** The [for] loop of [delta_encode]: [rest] is [input[i..]], [last] the
    previous byte, [out_pos] the number of bytes already written. *)
Fixpoint delta_encode_loop (last : Z) (rest : list Z) (out_pos : Z)
  : list Z :=
  match rest with
  | [] => []
  | x :: rest' =>
      if out_pos <? COMPRESSION_MAX_BLOCK_SIZE then
        let delta := s16 (x - last) in
        if (delta >=? -128) && (delta <=? 127) then
          u8 (Z.land delta 0xFF)
          :: delta_encode_loop x rest' (out_pos + 1)
        else
          0x80 :: u8 (Z.shiftr delta 8) :: u8 (Z.land delta 0xFF)
          :: delta_encode_loop x rest' (out_pos + 3)
      else []
  end.

Definition delta_encode (input : list Z) : list Z :=
  match input with
  | [] => []
  | x :: rest => x :: delta_encode_loop x rest 1
  end.

(** The [while] loop of [delta_decode]: [input] is what is left to read
    after [in_pos]; [in_pos + 1 < len] after the byte was read means that
    at least two more bytes follow it. *)
Fixpoint delta_decode_loop (last : Z) (input : list Z) : list Z :=
  match input with
  | [] => []
  | byte :: r1 =>
      match r1 with
      | hi :: lo :: r3 =>
          if byte =? 0x80 then
            let delta := s16 (Z.lor (Z.shiftl hi 8) lo) in
            let last' := s16 (last + delta) in
            u8 last' :: delta_decode_loop last' r3
          else
            let last' := s16 (last + s8 byte) in
            u8 last' :: delta_decode_loop last' r1
      | _ =>
          let last' := s16 (last + s8 byte) in
          u8 last' :: delta_decode_loop last' r1
      end
  end.

Definition delta_decode (input : list Z) : list Z :=
  match input with
  | [] => []
  | b :: rest => u8 b :: delta_decode_loop b rest
  end.

(** The inner [while] of [rle_encode] that counts the run: [tl] is
    [input[in_pos + run_length ..]]. *)
Fixpoint rle_run_length (symbol : Z) (tl : list Z) (run_length : Z) : Z :=
  match tl with
  | x :: tl' =>
      if (x =? symbol) && (run_length <? RLE_MAX_RUN_LENGTH)
      then rle_run_length symbol tl' (run_length + 1)
      else run_length
  | [] => run_length
  end.

(** The outer [while] of [rle_encode]; every iteration consumes at least
    one input byte, so [fuel = length input] iterations are enough. *)
Fixpoint rle_encode_loop (fuel : nat) (rest : list Z) (out_pos : Z)
  : list Z :=
  match fuel, rest with
  | S fuel', symbol :: tl =>
      if out_pos <? COMPRESSION_MAX_BLOCK_SIZE - 2 then
        let run_length := rle_run_length symbol tl 1 in
        if run_length >=? 3 then
          0x00 :: run_length :: symbol
          :: rle_encode_loop fuel' (skipn (Z.to_nat (run_length - 1)) tl)
                             (out_pos + 3)
        else if symbol =? 0x00 then
          0x00 :: 0x01 :: symbol :: rle_encode_loop fuel' tl (out_pos + 3)
        else
          symbol :: rle_encode_loop fuel' tl (out_pos + 1)
      else []
  | _, _ => []
  end.

Definition rle_encode (input : list Z) : list Z :=
  rle_encode_loop (length input) input 0.

(** [for(i = 0; i < run_length && out_pos < COMPRESSION_MAX_BLOCK_SIZE;
    i++) output[out_pos++] = symbol]. *)
Fixpoint rle_emit_run (run_length : nat) (symbol out_pos : Z) : list Z :=
  match run_length with
  | O => []
  | S k =>
      if out_pos <? COMPRESSION_MAX_BLOCK_SIZE
      then symbol :: rle_emit_run k symbol (out_pos + 1)
      else []
  end.

Fixpoint rle_decode_loop (input : list Z) (out_pos : Z) : list Z :=
  match input with
  | [] => []
  | byte :: r1 =>
      if byte =? 0x00 then
        match r1 with
        | [] => []
        | next :: r2 =>
            if next =? 0x00 then
              0x00 :: rle_decode_loop r2 (out_pos + 1)
            else if next =? 0x01 then
              match r2 with
              | [] => []
              | b :: r3 => b :: rle_decode_loop r3 (out_pos + 1)
              end
            else
              match r2 with
              | [] => []
              | symbol :: r3 =>
                  let run := rle_emit_run (Z.to_nat next) symbol out_pos in
                  run ++ rle_decode_loop r3
                           (out_pos + Z.of_nat (length run))
              end
        end
      else byte :: rle_decode_loop r1 (out_pos + 1)
  end.

Definition rle_decode (input : list Z) : list Z :=
  rle_decode_loop input 0.

(** No byte is exactly 128 below its predecessor: [last] is the
    predecessor of the first byte of [rest]. *)
Fixpoint no_delta_minus_128 (last : Z) (rest : list Z) : Prop :=
  match rest with
  | [] => True
  | x :: rest' => x - last <> -128 /\ no_delta_minus_128 x rest'
  end.

End compression.
Import compression.

(** ** core/flipper_rf_lab.h: the shared data types *)

Module flipper_rf_lab.

Definition MAX_PULSE_COUNT : Z := 4096.
Definition MAX_DEVICE_DB_ENTRIES : Z := 128.

(** [Pulse_t]: [width_us] is a [uint16_t], [level] a [uint8_t]. *)
Record Pulse_t : Type := mkPulse {
  width_us : Z;
  level : Z;
  pulse_timestamp_us : Z
}.

(** [Frame_t].  The field [length] is called [frame_length] here; it is a
    [uint8_t], [rssi_dbm] is a [uint16_t], [timestamp_us] and
    [duration_us] are [uint32_t]. *)
Record Frame_t : Type := mkFrame {
  data : list Z;
  frame_length : Z;
  timestamp_us : Z;
  rssi_dbm : Z;
  frequency_hz : Z;
  pulse_start_idx : Z;
  frame_pulse_count : Z;
  duration_us : Z;
  crc : Z;
  crc_valid : bool
}.

(** [RFFingerprint_t].  The compiler lays the record out in 32 bytes:
    the fields in order, one padding byte at offset 29 (kept here as
    [padding], since [fingerprinting_calculate_hash] reads it), and
    [unique_hash] at offset 30. *)
Record RFFingerprint_t : Type := mkFingerprint {
  drift_mean : Z;
  drift_variance : Z;
  rise_time_avg : Z;
  fall_time_avg : Z;
  clock_stability_ppm : Z;
  rssi_signature : list Z;
  padding : Z;
  unique_hash : Z
}.

Inductive RiskLevel_t : Type :=
| RISK_LOW | RISK_MEDIUM | RISK_HIGH | RISK_CRITICAL.

(** [ThreatAssessment_t] without the [description] text. *)
Record ThreatAssessment_t : Type := mkAssessment {
  risk_level : RiskLevel_t;
  entropy_bits : Z;
  has_checksum : bool;
  has_rolling_code : bool;
  is_static : bool;
  assessment_static_ratio : Z;
  vulnerability_score : Z
}.

End flipper_rf_lab.
Import flipper_rf_lab.

(** ** analysis/fingerprinting.h, analysis/fingerprinting.c *)

Module fingerprinting.

Definition FINGERPRINT_SAMPLE_COUNT : Z := 1000.
Definition MAX_SLOPE_SAMPLES : Z := 256.

Inductive FingerprintState_t : Type :=
| FINGERPRINT_STATE_IDLE
| FINGERPRINT_STATE_SAMPLING
| FINGERPRINT_STATE_ANALYZING
| FINGERPRINT_STATE_MATCHING
| FINGERPRINT_STATE_LEARNING.

Definition is_sampling (s : FingerprintState_t) : bool :=
  match s with FINGERPRINT_STATE_SAMPLING => true | _ => false end.

(** [FingerprintCaptureState_t]; the arrays keep their declared sizes
    (1000, 256, 1000 and 16 entries). *)
Record FingerprintCaptureState_t : Type := mkCapture {
  inter_frame_intervals : list Z;
  interval_count : Z;
  last_frame_timestamp : Z;
  rssi_samples : list Z;
  rssi_sample_count : Z;
  rssi_sample_start : Z;
  symbol_timings : list Z;
  symbol_count : Z;
  rssi_envelope : list Z;
  current_fingerprint : RFFingerprint_t;
  state : FingerprintState_t;
  frames_captured : Z;
  capture_start_time : Z
}.

Record StatisticalSummary_t : Type := mkSummary {
  stat_mean : Z;
  stat_variance : Z;
  stat_std_dev : Z;
  stat_min : Z;
  stat_max : Z;
  stat_median : Z
}.

Definition zero_fingerprint : RFFingerprint_t :=
  mkFingerprint 0 0 0 0 0 (repeat 0 16) 0 0.

(** [memset(&capture_state, 0, sizeof(capture_state))]. *)
Definition zero_capture_state : FingerprintCaptureState_t :=
  mkCapture (repeat 0 1000) 0 0 (repeat 0 256) 0 0 (repeat 0 1000) 0
            (repeat 0 16) zero_fingerprint FINGERPRINT_STATE_IDLE 0 0.

(** The memory the engine works on: the static [capture_state] and one
    fingerprint record owned by a caller.  A [RFFingerprint_t*] argument
    points either into [capture_state] or at the caller's record. *)
Record fp_memory : Type := mkMemory {
  capture_state : FingerprintCaptureState_t;
  caller_fingerprint : RFFingerprint_t
}.

Inductive fingerprint_ptr : Type :=
| ptr_current_fingerprint   (* &capture_state.current_fingerprint *)
| ptr_caller_fingerprint.   (* a record outside capture_state *)

Definition set_current_fingerprint
  (cs : FingerprintCaptureState_t) (fp : RFFingerprint_t)
  : FingerprintCaptureState_t :=
  mkCapture (inter_frame_intervals cs) (interval_count cs)
            (last_frame_timestamp cs) (rssi_samples cs)
            (rssi_sample_count cs) (rssi_sample_start cs)
            (symbol_timings cs) (symbol_count cs) (rssi_envelope cs)
            fp (state cs) (frames_captured cs) (capture_start_time cs).

Definition set_state
  (cs : FingerprintCaptureState_t) (s : FingerprintState_t)
  : FingerprintCaptureState_t :=
  mkCapture (inter_frame_intervals cs) (interval_count cs)
            (last_frame_timestamp cs) (rssi_samples cs)
            (rssi_sample_count cs) (rssi_sample_start cs)
            (symbol_timings cs) (symbol_count cs) (rssi_envelope cs)
            (current_fingerprint cs) s (frames_captured cs)
            (capture_start_time cs).

Definition load (m : fp_memory) (p : fingerprint_ptr) : RFFingerprint_t :=
  match p with
  | ptr_current_fingerprint => current_fingerprint (capture_state m)
  | ptr_caller_fingerprint => caller_fingerprint m
  end.

Definition store (m : fp_memory) (p : fingerprint_ptr) (fp : RFFingerprint_t)
  : fp_memory :=
  match p with
  | ptr_current_fingerprint =>
      mkMemory (set_current_fingerprint (capture_state m) fp)
               (caller_fingerprint m)
  | ptr_caller_fingerprint => mkMemory (capture_state m) fp
  end.

Definition set_unique_hash (fp : RFFingerprint_t) (h : Z) : RFFingerprint_t :=
  mkFingerprint (drift_mean fp) (drift_variance fp) (rise_time_avg fp)
                (fall_time_avg fp) (clock_stability_ppm fp)
                (rssi_signature fp) (padding fp) h.

(** Little-endian image of an unsigned value in [k] bytes. *)
Fixpoint le_bytes (k : nat) (v : Z) : list Z :=
  match k with
  | O => []
  | S k' => u8 v :: le_bytes k' (Z.shiftr v 8)
  end.

(** The 32 bytes of a [RFFingerprint_t] in memory. *)
Definition fingerprint_image (fp : RFFingerprint_t) : list Z :=
  le_bytes 4 (drift_mean fp) ++ le_bytes 4 (drift_variance fp)
  ++ le_bytes 2 (rise_time_avg fp) ++ le_bytes 2 (fall_time_avg fp)
  ++ [clock_stability_ppm fp] ++ rssi_signature fp ++ [padding fp]
  ++ le_bytes 2 (unique_hash fp).

Definition sizeof_RFFingerprint_t : Z := 32.

(** The inner [for(j = 0; j < 8; j++)] of the CRC. *)
Fixpoint crc16_shift (j : nat) (crc : Z) : Z :=
  match j with
  | O => crc
  | S j' =>
      crc16_shift j'
        (if Z.land crc 0x8000 =? 0
         then u16 (Z.shiftl crc 1)
         else u16 (Z.lxor (Z.shiftl crc 1) 0x1021))
  end.

Definition crc16_byte (crc byte : Z) : Z :=
  crc16_shift 8 (u16 (Z.lxor crc (Z.shiftl (u16 byte) 8))).

Definition fingerprinting_calculate_hash (fingerprint : RFFingerprint_t) : Z :=
  let len := u16 (sizeof_RFFingerprint_t - 2) in
  fold_left crc16_byte
            (firstn (Z.to_nat len) (fingerprint_image fingerprint)) 0xFFFF.

(** The integer square root of [fingerprinting_calc_statistics]. *)
Fixpoint isqrt_loop (i : nat) (var std add : Z) : Z :=
  match i with
  | O => std
  | S i' =>
      let temp := Z.lor std add in
      let std' := if var >=? u32 (temp * temp) then temp else std in
      isqrt_loop i' var std' (Z.shiftr add 1)
  end.

Definition fingerprinting_calc_statistics (data : list Z) (count : Z)
  : StatisticalSummary_t :=
  if count =? 0 then mkSummary 0 0 0 0 0 0
  else
    let xs := firstn (Z.to_nat count) data in
    let sum := fold_left (fun s x => u64 (s + x)) xs 0 in
    let mn := fold_left (fun m x => if x <? m then x else m) xs (nth 0 data 0) in
    let mx := fold_left (fun m x => if x >? m then x else m) xs (nth 0 data 0) in
    let mean := u32 (sum / count) in
    let variance_sum :=
      fold_left (fun s x => let diff := x - mean in u64 (s + s64 (diff * diff)))
                xs 0 in
    let variance := u32 (variance_sum / count) in
    let std_dev := isqrt_loop 16 variance 0 0x8000 in
    mkSummary mean variance std_dev mn mx mean.

Definition fingerprinting_analyze_timing_drift
  (cs : FingerprintCaptureState_t) : FingerprintCaptureState_t :=
  if interval_count cs <? 10 then cs
  else
    let stats := fingerprinting_calc_statistics (inter_frame_intervals cs)
                                                (interval_count cs) in
    let fp := current_fingerprint cs in
    set_current_fingerprint cs
      (mkFingerprint (stat_mean stats) (stat_variance stats)
                     (rise_time_avg fp) (fall_time_avg fp)
                     (clock_stability_ppm fp) (rssi_signature fp)
                     (padding fp) (unique_hash fp)).

(** The loop of [fingerprinting_analyze_rise_fall_slopes] over the
    samples after the first; the accumulator is
    [(previous sample, total_rise, total_fall, rise_count, fall_count)]. *)
Definition slope_step (acc : Z * Z * Z * Z * Z) (sample : Z)
  : Z * Z * Z * Z * Z :=
  let '(prev, total_rise, total_fall, rise_count, fall_count) := acc in
  let diff := s16 (sample - prev) in
  if diff >? 0 then
    (sample, u32 (total_rise + diff), total_fall, u16 (rise_count + 1),
     fall_count)
  else if diff <? 0 then
    (sample, total_rise, u32 (total_fall + - diff), rise_count,
     u16 (fall_count + 1))
  else (sample, total_rise, total_fall, rise_count, fall_count).

Definition fingerprinting_analyze_rise_fall_slopes
  (cs : FingerprintCaptureState_t) : FingerprintCaptureState_t :=
  if rssi_sample_count cs <? 10 then cs
  else
    let xs := firstn (Z.to_nat (rssi_sample_count cs)) (rssi_samples cs) in
    let '(_, total_rise, total_fall, rise_count, fall_count) :=
      fold_left slope_step (tl xs) (hd 0 xs, 0, 0, 0, 0) in
    let fp := current_fingerprint cs in
    let rise := if rise_count >? 0 then u16 (total_rise / rise_count)
                else rise_time_avg fp in
    let fall := if fall_count >? 0 then u16 (total_fall / fall_count)
                else fall_time_avg fp in
    set_current_fingerprint cs
      (mkFingerprint (drift_mean fp) (drift_variance fp) rise fall
                     (clock_stability_ppm fp) (rssi_signature fp)
                     (padding fp) (unique_hash fp)).

Definition fingerprinting_analyze_clock_stability
  (cs : FingerprintCaptureState_t) : FingerprintCaptureState_t :=
  if symbol_count cs <? 10 then cs
  else
    let stats := fingerprinting_calc_statistics (symbol_timings cs)
                                                (symbol_count cs) in
    if stat_mean stats >? 0 then
      let ppm := u32 (stat_std_dev stats * 1000000) / stat_mean stats in
      let ppm := if ppm >? 255 then 255 else ppm in
      let fp := current_fingerprint cs in
      set_current_fingerprint cs
        (mkFingerprint (drift_mean fp) (drift_variance fp)
                       (rise_time_avg fp) (fall_time_avg fp) (u8 ppm)
                       (rssi_signature fp) (padding fp) (unique_hash fp))
    else cs.

Definition fingerprinting_analyze_rssi_envelope
  (cs : FingerprintCaptureState_t) : FingerprintCaptureState_t :=
  let fp := current_fingerprint cs in
  set_current_fingerprint cs
    (mkFingerprint (drift_mean fp) (drift_variance fp)
                   (rise_time_avg fp) (fall_time_avg fp)
                   (clock_stability_ppm fp) (firstn 16 (rssi_envelope cs))
                   (padding fp) (unique_hash fp)).

(** [fingerprinting_generate_fingerprint(fingerprint)]: the four analyses
    write [capture_state.current_fingerprint]; the hash is then computed
    from, and stored through, the pointer argument; last, the record
    pointed to is overwritten with [capture_state.current_fingerprint]. *)
Definition fingerprinting_generate_fingerprint
  (m : fp_memory) (fingerprint : fingerprint_ptr) : fp_memory :=
  let cs := fingerprinting_analyze_rssi_envelope
              (fingerprinting_analyze_clock_stability
                 (fingerprinting_analyze_rise_fall_slopes
                    (fingerprinting_analyze_timing_drift (capture_state m)))) in
  let m1 := mkMemory cs (caller_fingerprint m) in
  let h := fingerprinting_calculate_hash (load m1 fingerprint) in
  let m2 := store m1 fingerprint (set_unique_hash (load m1 fingerprint) h) in
  let m3 := store m2 fingerprint (current_fingerprint (capture_state m2)) in
  mkMemory (set_state (capture_state m3) FINGERPRINT_STATE_MATCHING)
           (caller_fingerprint m3).

(** [fingerprinting_start_capture]; [tick] is what [furi_get_tick()]
    returns. *)
Definition fingerprinting_start_capture (m : fp_memory) (tick : Z)
  : fp_memory :=
  let cs := zero_capture_state in
  mkMemory
    (mkCapture (inter_frame_intervals cs) (interval_count cs)
               (last_frame_timestamp cs) (rssi_samples cs)
               (rssi_sample_count cs) (rssi_sample_start cs)
               (symbol_timings cs) (symbol_count cs) (rssi_envelope cs)
               (current_fingerprint cs) FINGERPRINT_STATE_SAMPLING
               (frames_captured cs) tick)
    (caller_fingerprint m).

(** [fingerprinting_process_frame]; [None] is the division by zero of
    [frame->duration_us / frame->length]. *)
Definition fingerprinting_process_frame (m : fp_memory) (frame : Frame_t)
  : option fp_memory :=
  let cs := capture_state m in
  if negb (is_sampling (state cs)) then Some m
  else
    let now := timestamp_us frame in
    let '(intervals, icount) :=
      if last_frame_timestamp cs >? 0 then
        let interval := u32 (now - last_frame_timestamp cs) in
        if interval_count cs <? FINGERPRINT_SAMPLE_COUNT
        then (upd (Z.to_nat (interval_count cs)) interval
                  (inter_frame_intervals cs),
              u16 (interval_count cs + 1))
        else (inter_frame_intervals cs, interval_count cs)
      else (inter_frame_intervals cs, interval_count cs) in
    let symbols :=
      if symbol_count cs <? FINGERPRINT_SAMPLE_COUNT then
        if frame_length frame =? 0 then None
        else Some (upd (Z.to_nat (symbol_count cs))
                       (duration_us frame / frame_length frame)
                       (symbol_timings cs),
                   u16 (symbol_count cs + 1))
      else Some (symbol_timings cs, symbol_count cs) in
    match symbols with
    | None => None
    | Some (timings, scount) =>
        let rssi_idx := u8 (frames_captured cs mod 16) in
        let envelope := upd (Z.to_nat rssi_idx) (u8 (rssi_dbm frame + 128))
                            (rssi_envelope cs) in
        let captured := u32 (frames_captured cs + 1) in
        let cs' := mkCapture intervals icount now (rssi_samples cs)
                             (rssi_sample_count cs) (rssi_sample_start cs)
                             timings scount envelope (current_fingerprint cs)
                             (state cs) captured (capture_start_time cs) in
        let m' := mkMemory cs' (caller_fingerprint m) in
        if captured >=? FINGERPRINT_SAMPLE_COUNT then
          Some (fingerprinting_generate_fingerprint
                  (mkMemory (set_state cs' FINGERPRINT_STATE_ANALYZING)
                            (caller_fingerprint m))
                  ptr_current_fingerprint)
        else Some m'
    end.

(** What the specification asks of a produced record: the stored hash is
    the CRC of everything in the record but the hash. *)
Definition hash_matches (fp : RFFingerprint_t) : Prop :=
  unique_hash fp = fingerprinting_calculate_hash fp.

End fingerprinting.
Import fingerprinting.

(* ================================================================= *)
(** * Part II: properties                                             *)
(* ================================================================= *)

Example fixed_mul_10_5 :
  fixed_mul (INT_TO_FIXED 10) (INT_TO_FIXED 5) = INT_TO_FIXED 50.
Proof. reflexivity. Qed.

Example fixed_sqrt_16 : fixed_sqrt (INT_TO_FIXED 16) = INT_TO_FIXED 4.
Proof. vm_compute. reflexivity. Qed.

(** ** Wrap-around arithmetic *)

Lemma uwrap_small (w x : Z) : 0 <= x < 2 ^ w -> uwrap w x = x.
Proof. intros H. unfold uwrap. apply Z.mod_small. exact H. Qed.

Lemma swrap_small (w x : Z) :
  0 < w -> - 2 ^ (w - 1) <= x < 2 ^ (w - 1) -> swrap w x = x.
Proof.
  intros Hw H. unfold swrap.
  assert (E : 2 ^ w = 2 * 2 ^ (w - 1)).
  { replace w with (Z.succ (w - 1)) at 1 by lia. apply Z.pow_succ_r. lia. }
  rewrite Z.mod_small; lia.
Qed.

Lemma s32_small (x : Z) : is_s32 x -> s32 x = x.
Proof. intros H. apply swrap_small; [lia | exact H]. Qed.

Lemma s64_small (x : Z) :
  - 9223372036854775808 <= x < 9223372036854775808 -> s64 x = x.
Proof. intros H. apply swrap_small; [lia | exact H]. Qed.

Lemma u32_small (x : Z) : 0 <= x < 4294967296 -> u32 x = x.
Proof. intros H. apply uwrap_small. exact H. Qed.

Lemma u16_small (x : Z) : is_u16 x -> u16 x = x.
Proof. intros H. apply uwrap_small. exact H. Qed.

Lemma u8_small (x : Z) : is_u8 x -> u8 x = x.
Proof. intros H. apply uwrap_small. exact H. Qed.

Lemma s32_range (x : Z) : is_s32 (s32 x).
Proof.
  unfold is_s32, s32, swrap.
  pose proof (Z.mod_pos_bound (x + 2 ^ (32 - 1)) (2 ^ 32) ltac:(lia)).
  change (2 ^ (32 - 1)) with 2147483648 in *.
  change (2 ^ 32) with 4294967296 in *. lia.
Qed.

Lemma u16_range (x : Z) : is_u16 (u16 x).
Proof.
  unfold is_u16, u16, uwrap.
  pose proof (Z.mod_pos_bound x (2 ^ 16) ltac:(lia)).
  change (2 ^ 16) with 65536 in *. lia.
Qed.

Lemma u8_range (x : Z) : is_u8 (u8 x).
Proof.
  unfold is_u8, u8, uwrap.
  pose proof (Z.mod_pos_bound x (2 ^ 8) ltac:(lia)).
  change (2 ^ 8) with 256 in *. lia.
Qed.

(** ** Fixed-point library *)

Lemma FIXED_MIN_value : FIXED_MIN = - 2147483648.
Proof. reflexivity. Qed.

Lemma FIXED_ONE_value : FIXED_ONE = 65536.
Proof. reflexivity. Qed.

(** On non-negative values multiplying by one is the identity. *)
Lemma fixed_mul_one_nonneg (a : Z) :
  is_s32 a -> 0 <= a -> fixed_mul a FIXED_ONE = a.
Proof.
  intros Ha Hpos. unfold fixed_mul, is_s32 in *.
  change FIXED_ONE with 65536. change FIXED_SCALE with 65536.
  change FIXED_FRACTIONAL_BITS with 16. change (Z.shiftr 65536 1) with 32768.
  rewrite (s64_small (a * 65536)) by lia.
  destruct (Z.geb_spec (a * 65536) 0) as [_ | Hneg]; [| lia].
  rewrite s64_small by lia.
  rewrite Z.shiftr_div_pow2 by lia. change (2 ^ 16) with 65536.
  replace ((a * 65536 + 32768) / 65536) with a.
  - apply s32_small. unfold is_s32. lia.
  - apply Z.div_unique with (r := 32768); lia.
Qed.

(** On negative values the rounding step subtracts one half and the
    arithmetic shift then rounds down: the product with one is [a - 1]. *)
Lemma fixed_mul_one_neg (a : Z) :
  is_s32 a -> a < 0 -> fixed_mul a FIXED_ONE = s32 (a - 1).
Proof.
  intros Ha Hneg. unfold fixed_mul, is_s32 in *.
  change FIXED_ONE with 65536. change FIXED_SCALE with 65536.
  change FIXED_FRACTIONAL_BITS with 16. change (Z.shiftr 65536 1) with 32768.
  rewrite (s64_small (a * 65536)) by lia.
  destruct (Z.geb_spec (a * 65536) 0) as [Hpos | _]; [lia |].
  rewrite s64_small by lia.
  rewrite Z.shiftr_div_pow2 by lia. change (2 ^ 16) with 65536.
  match goal with
  | |- context [ ?t / 65536 ] =>
      assert (E : t / 65536 = a - 1)
        by (symmetry; apply Z.div_unique with (r := 32768); lia)
  end.
  rewrite E. reflexivity.
Qed.

Lemma fixed_div_self_pos (a : Z) :
  is_s32 a -> 0 < a -> fixed_div a a = FIXED_ONE.
Proof.
  intros Ha Hpos. unfold fixed_div, is_s32 in *.
  destruct (Z.eqb_spec a 0) as [-> | _]; [lia |].
  change FIXED_FRACTIONAL_BITS with 16.
  rewrite Z.shiftl_mul_pow2 by lia. change (2 ^ 16) with 65536.
  rewrite (s64_small (a * 65536)) by lia.
  destruct (Z.geb_spec (a * 65536) 0) as [_ | Hneg]; [| lia].
  rewrite Z.shiftr_div_pow2 by lia. change (2 ^ 1) with 2.
  assert (Hh : 0 <= a / 2 < a).
  { split; [apply Z.div_pos; lia | apply Z.div_lt; lia]. }
  rewrite s64_small by lia.
  replace (Z.quot (a * 65536 + a / 2) a) with 65536; [reflexivity |].
  rewrite Z.quot_div_nonneg by lia.
  apply Z.div_unique with (r := a / 2); lia.
Qed.

(** For a negative [a] the rounding term [a >> 1] is subtracted from a
    negative numerator, which moves it toward zero: the quotient is one
    unit short of [FIXED_ONE]. *)
Lemma fixed_div_self_neg (a : Z) :
  is_s32 a -> a < 0 -> fixed_div a a = FIXED_ONE - 1.
Proof.
  intros Ha Hneg. unfold fixed_div, is_s32 in *.
  destruct (Z.eqb_spec a 0) as [-> | _]; [lia |].
  change FIXED_FRACTIONAL_BITS with 16.
  rewrite Z.shiftl_mul_pow2 by lia. change (2 ^ 16) with 65536.
  rewrite (s64_small (a * 65536)) by lia.
  destruct (Z.geb_spec (a * 65536) 0) as [Hpos | _]; [lia |].
  rewrite Z.shiftr_div_pow2 by lia. change (2 ^ 1) with 2.
  assert (Hh : a <= a / 2 < 0).
  { pose proof (Z.div_mod a 2 ltac:(lia)).
    pose proof (Z.mod_pos_bound a 2 ltac:(lia)). lia. }
  rewrite s64_small by lia.
  change (FIXED_ONE - 1) with 65535.
  assert (E : Z.quot (a * 65536 - a / 2) a = 65535).
  { rewrite <- (Z.quot_opp_opp (a * 65536 - a / 2) a) by lia.
    rewrite Z.quot_div_nonneg by lia.
    symmetry. apply Z.div_unique with (r := - a + a / 2); lia. }
  rewrite E. reflexivity.
Qed.

(** C6 (code defect).  The multiplicative identity laws
    [fixed_mul(a, FIXED_ONE) == a] and [fixed_div(a, a) == FIXED_ONE] are
    evaluated at the Q15.16 value -1.0: the product is one unit below
    -1.0 and the quotient is one unit below [FIXED_ONE], so both laws are
    broken by the sign handling of the rounding step. *)
Theorem fixed_identity_laws_at_minus_one :
  fixed_mul (INT_TO_FIXED (-1)) FIXED_ONE = INT_TO_FIXED (-1) - 1 /\
  fixed_mul (INT_TO_FIXED (-1)) FIXED_ONE <> INT_TO_FIXED (-1) /\
  fixed_div (INT_TO_FIXED (-1)) (INT_TO_FIXED (-1)) = FIXED_ONE - 1 /\
  fixed_div (INT_TO_FIXED (-1)) (INT_TO_FIXED (-1)) <> FIXED_ONE.
Proof. repeat split; vm_compute; congruence. Qed.

(** C7.  The numerical fallbacks of the fixed-point library: a division by
    zero saturates with the sign of the numerator, the square root of a
    negative argument is 0 and the logarithm of a non-positive argument is
    [FIXED_MIN].  The three functions are total, so no input makes them
    fail. *)
Theorem fixed_point_fallbacks (a x y : Z) (Hx : x < 0) (Hy : y <= 0) :
  fixed_div a 0 = (if a >=? 0 then FIXED_MAX else FIXED_MIN) /\
  fixed_sqrt x = 0 /\
  fixed_log y = FIXED_MIN.
Proof.
  repeat split.
  - unfold fixed_sqrt. destruct (Z.leb_spec x 0); [reflexivity | lia].
  - unfold fixed_log. destruct (Z.leb_spec y 0); [reflexivity | lia].
Qed.

Lemma fixed_point_fallbacks_witness :
  fixed_div (INT_TO_FIXED (-5)) 0 = FIXED_MIN /\
  fixed_div (INT_TO_FIXED 5) 0 = FIXED_MAX /\
  fixed_sqrt (INT_TO_FIXED (-4)) = 0 /\
  fixed_log 0 = FIXED_MIN.
Proof.
  assert (Hx : INT_TO_FIXED (-4) < 0) by (vm_compute; reflexivity).
  assert (Hy : 0 <= 0) by lia.
  destruct (fixed_point_fallbacks (INT_TO_FIXED (-5)) _ _ Hx Hy)
    as (H1 & H2 & H3).
  destruct (fixed_point_fallbacks (INT_TO_FIXED 5) _ _ Hx Hy)
    as (H4 & _ & _).
  repeat split; assumption.
Defined.

(** ** Welford accumulator *)

Example welford_one_to_ten :
  let st := welford_run (map INT_TO_FIXED [1; 2; 3; 4; 5; 6; 7; 8; 9; 10]) in
  (n st, mean st, welford_get_variance st, wf_min_val st, wf_max_val st)
  = (10, 360448, 600746, INT_TO_FIXED 1, INT_TO_FIXED 10).
Proof. vm_compute. reflexivity. Qed.

(** The unsigned division of a negative [delta]: feeding 2 and then 0
    (raw units) leaves a stored mean next to the most negative value. *)
Example welford_negative_delta :
  mean (welford_run [2; 0]) = - 2147483647.
Proof. vm_compute. reflexivity. Qed.

(** One step of the accumulator when the sample is not below the stored
    mean: no conversion wraps, and the gap between the running sum and
    [n * mean] grows by the remainder of the division. *)
Lemma welford_add_sample_step (st : WelfordState_t) (x : Z) :
  is_s32 x -> 0 <= n st -> n st + 1 < 2 ^ 32 ->
  0 <= mean st -> mean st <= x ->
  let st' := welford_add_sample st x in
  n st' = n st + 1 /\
  mean st <= mean st' <= x /\
  (n st + 1) * mean st' = n st * mean st + x - (x - mean st) mod (n st + 1).
Proof.
  intros Hx Hn Hn' Hm Hle. unfold is_s32 in Hx.
  change (2 ^ 32) with 4294967296 in Hn'.
  unfold welford_add_sample; cbn [n mean].
  rewrite (u32_small (n st + 1)) by lia.
  rewrite (s32_small (x - mean st)) by (unfold is_s32; lia).
  rewrite (u32_small (mean st)) by lia.
  rewrite (u32_small (x - mean st)) by lia.
  set (d := x - mean st). set (k := n st + 1).
  assert (Hk : 0 < k) by (unfold k; lia).
  assert (Hd : 0 <= d) by (unfold d; lia).
  pose proof (Z.div_mod d k ltac:(lia)) as Hdm.
  pose proof (Z.mod_pos_bound d k Hk) as Hr.
  assert (Hq : 0 <= d / k) by (apply Z.div_pos; lia).
  assert (Hqd : d / k <= d).
  { apply Z.div_le_upper_bound; [lia |]. nia. }
  rewrite s32_small by (unfold is_s32, d in *; lia).
  split; [reflexivity |].
  split; [unfold d in *; lia |].
  unfold k in *. unfold d in *. nia.
Qed.

Lemma welford_fold_bound (xs : list Z) :
  forall (st : WelfordState_t) (S : Z),
    Forall is_s32 xs ->
    0 <= n st -> n st + Z.of_nat (length xs) < 2 ^ 32 ->
    0 <= mean st ->
    0 <= S - n st * mean st ->
    2 * (S - n st * mean st) <= n st * (n st - 1) ->
    samples_not_below_mean st xs ->
    let st' := fold_left welford_add_sample xs st in
    n st' = n st + Z.of_nat (length xs) /\
    0 <= (S + zsum xs) - n st' * mean st' /\
    2 * ((S + zsum xs) - n st' * mean st') <= n st' * (n st' - 1).
Proof.
  induction xs as [| x rest IH]; intros st S Hr Hn Hlen Hm Hlo Hhi Hup.
  - cbn [fold_left length zsum fold_right Z.of_nat]. repeat split; lia.
  - cbn [fold_left]. cbn [samples_not_below_mean] in Hup.
    destruct Hup as [Hle Hup].
    inversion Hr as [| ? ? Hx Hr']; subst.
    cbn [length] in Hlen. rewrite Nat2Z.inj_succ in Hlen.
    destruct (welford_add_sample_step st x Hx Hn ltac:(lia) Hm Hle)
      as (En & (Hm1 & Hm2) & Eprod).
    pose proof (Z.mod_pos_bound (x - mean st) (n st + 1) ltac:(lia)) as Hrem.
    specialize (IH (welford_add_sample st x) (S + x) Hr').
    rewrite En in IH.
    specialize (IH ltac:(lia) ltac:(lia) ltac:(lia)).
    rewrite Eprod in IH.
    specialize (IH ltac:(lia) ltac:(nia) Hup).
    cbn zeta in IH. destruct IH as (IH1 & IH2 & IH3).
    cbn [length zsum fold_right]. rewrite Nat2Z.inj_succ.
    unfold zsum in *.
    repeat split; [lia | |].
    + replace (S + (x + fold_right Z.add 0 rest))
        with (S + x + fold_right Z.add 0 rest) by lia. exact IH2.
    + replace (S + (x + fold_right Z.add 0 rest))
        with (S + x + fold_right Z.add 0 rest) by lia. exact IH3.
Qed.

(** C3 (amended).  After feeding [xs], each sample being a 32-bit value
    not below the mean stored when it arrives (for instance non-negative
    samples fed in non-decreasing order): the counter is the number of
    samples, the stored mean is at or below the exact mean and short of
    it by at most the accumulated division remainders,
    [0 <= sum - n * mean <= n * (n - 1) / 2], and [welford_get_variance]
    returns 0 for [n < 2] and the truncated quotient [m2 / (n - 1)]
    otherwise. *)
Theorem welford_mean_within_remainders
  (xs : list Z)
  (Hrange : Forall is_s32 xs)
  (Hlen : Z.of_nat (length xs) < 2 ^ 32)
  (Hup : samples_not_below_mean welford_init xs) :
  let st := welford_run xs in
  let len := Z.of_nat (length xs) in
  n st = len /\
  0 <= zsum xs - len * welford_get_mean st /\
  2 * (zsum xs - len * welford_get_mean st) <= len * (len - 1) /\
  welford_get_variance st
  = (if len <? 2 then 0 else s32 (u32 (m2 st) / (len - 1))).
Proof.
  intros st len.
  destruct (welford_fold_bound xs welford_init 0 Hrange) as (E1 & E2 & E3);
    cbn [welford_init n mean]; try lia; try exact Hup.
  cbn [welford_init n mean] in E1, E2, E3.
  fold (welford_run xs) in E1, E2, E3. fold st in E1, E2, E3.
  rewrite Z.add_0_l in E1, E2, E3. fold len in E1. rewrite E1 in E2, E3.
  unfold welford_get_mean.
  repeat split; try assumption.
  unfold welford_get_variance. rewrite E1.
  destruct (Z.ltb_spec len 2); [reflexivity |].
  rewrite (u32_small (len - 1)); [reflexivity |].
  change (2 ^ 32) with 4294967296 in Hlen. unfold len in *. lia.
Qed.

Lemma welford_mean_within_remainders_witness :
  let xs := map INT_TO_FIXED [0; 100; 100; 100; 100; 100; 100; 100; 100; 100] in
  let st := welford_run xs in
  n st = 10 /\
  0 <= zsum xs - 10 * welford_get_mean st /\
  2 * (zsum xs - 10 * welford_get_mean st) <= 10 * (10 - 1) /\
  welford_get_variance st = s32 (u32 (m2 st) / (10 - 1)).
Proof.
  intros xs st.
  assert (Hrange : Forall is_s32 xs).
  { unfold xs. repeat constructor; vm_compute; congruence. }
  assert (Hlen : Z.of_nat (length xs) < 2 ^ 32) by (vm_compute; reflexivity).
  assert (Hup : samples_not_below_mean welford_init xs).
  { unfold xs. vm_compute. repeat split; congruence. }
  exact (welford_mean_within_remainders xs Hrange Hlen Hup).
Defined.

(** C3 (as stated) fails.  For the samples 0, 100, 100, ..., 100 (ten
    values) the exact mean is 90 and the exact sample variance is 1000;
    the stored mean is two units in the last place below 90 and the
    returned variance is 39 units above 1000: neither is within one ULP. *)
Lemma welford_not_within_one_ulp :
  let xs := map INT_TO_FIXED [0; 100; 100; 100; 100; 100; 100; 100; 100; 100] in
  let st := welford_run xs in
  n st = 10 /\
  welford_get_mean st = INT_TO_FIXED 90 - 2 /\
  welford_get_variance st = INT_TO_FIXED 1000 + 39 /\
  ~ within_one_ulp (welford_get_mean st) (exact_mean (map fixed_value xs)) /\
  ~ within_one_ulp (welford_get_variance st)
      (exact_variance (map fixed_value xs)).
Proof.
  cbv zeta. repeat split; try (vm_compute; reflexivity).
  - unfold within_one_ulp. intro H. vm_compute in H. apply H. reflexivity.
  - unfold within_one_ulp. intro H. vm_compute in H. apply H. reflexivity.
Qed.

(** ** Histogram *)

Lemma upd_length {A : Type} (i : nat) (v : A) (l : list A) :
  length (upd i v l) = length l.
Proof.
  revert i. induction l as [| h t IH]; intros [| i]; cbn; auto.
Qed.

Lemma nth_upd_same (i : nat) (v : Z) (l : list Z) :
  (i < length l)%nat -> nth i (upd i v l) 0 = v.
Proof.
  revert i. induction l as [| h t IH]; intros [| i] H; cbn in *;
    try lia; auto. apply IH. lia.
Qed.

Lemma nth_upd_other (i j : nat) (v : Z) (l : list Z) :
  i <> j -> nth j (upd i v l) 0 = nth j l 0.
Proof.
  revert i j. induction l as [| h t IH]; intros [| i] [| j] H; cbn;
    try reflexivity; try congruence. apply IH. congruence.
Qed.

Lemma zsum_upd (i : nat) (v : Z) (l : list Z) :
  (i < length l)%nat -> zsum (upd i v l) = zsum l - nth i l 0 + v.
Proof.
  unfold zsum. revert i.
  induction l as [| h t IH]; intros [| i] H; cbn in *; try lia.
  rewrite IH by lia. lia.
Qed.

Lemma nth_le_zsum (l : list Z) :
  Forall (fun b => 0 <= b) l -> forall i, 0 <= nth i l 0 <= zsum l.
Proof.
  unfold zsum. induction 1 as [| h t Hh Ht IH]; intros [| i]; cbn; try lia.
  - specialize (IH 0%nat). destruct t; cbn in *; lia.
  - specialize (IH i). lia.
Qed.

Lemma Forall_upd {A : Type} (P : A -> Prop) (i : nat) (v : A) (l : list A) :
  P v -> Forall P l -> Forall P (upd i v l).
Proof.
  intros Hv H. revert i.
  induction H as [| h t Hh Ht IH]; intros [| i]; cbn; constructor; auto.
Qed.

Lemma zsum_repeat_0 (k : nat) : zsum (repeat 0 k) = 0.
Proof. unfold zsum. induction k; cbn; lia. Qed.

Lemma nth_repeat_0 (k i : nat) : nth i (repeat 0 k) 0 = 0.
Proof. revert i. induction k; intros [| i]; cbn; auto. Qed.

(** What [histogram_add] keeps true while fewer than [2 ^ 16] samples
    have been offered: [m] bounds the number of calls so far. *)
Definition hist_sound (m : Z) (h : Histogram_t) : Prop :=
  length (bins h) = 256%nat /\
  1 <= num_bins h <= 256 /\
  Forall (fun b => 0 <= b) (bins h) /\
  0 <= peak_bin h /\
  total_samples h <= m /\
  hist_invariant h.

Lemma histogram_init_sound (nb lo hi : Z) (h : Histogram_t) :
  is_u16 nb -> histogram_init nb lo hi = Some h -> hist_sound 0 h.
Proof.
  unfold histogram_init, is_u16, HISTOGRAM_MAX_BINS. intros Hnb.
  set (k := if nb <? 256 then nb else 256).
  assert (Hk : 0 <= k <= 256) by (unfold k; destruct (Z.ltb_spec nb 256); lia).
  destruct (Z.eqb_spec k 0) as [E | NE]; [discriminate |].
  intros E.
  match type of E with
  | Some ?r = _ => assert (E' : h = r) by congruence
  end.
  rewrite E'. clear E E'. unfold hist_sound, hist_invariant.
  unfold bins, num_bins, peak_bin, peak_count, total_samples.
  split; [apply repeat_length |].
  split; [lia |].
  split; [apply Forall_forall; intros b Hb; apply repeat_spec in Hb; lia |].
  split; [lia |].
  split; [lia |].
  split; [apply nth_repeat_0 |].
  split; [intros i; rewrite nth_repeat_0; lia | apply zsum_repeat_0].
Qed.

Lemma histogram_add_sound (m : Z) (h : Histogram_t) (v : Z) :
  0 <= m < 65535 -> hist_sound m h -> hist_sound (m + 1) (histogram_add h v).
Proof.
  intros Hm (Hlen & Hnb & Hpos & Hpb & Htot & Hpk & Hmax & Hsum).
  unfold histogram_add.
  destruct ((v <? min_val h) || (v >? max_val h)).
  { unfold hist_sound, hist_invariant. repeat split; auto; lia. }
  set (b0 := u16 (s32 (Z.quot (s32 (v - min_val h)) (bin_width h)))).
  set (b := if b0 >=? num_bins h then u16 (num_bins h - 1) else b0).
  assert (Hb : 0 <= b < num_bins h).
  { unfold b. pose proof (u16_range (s32 (Z.quot (s32 (v - min_val h))
                                                   (bin_width h)))) as R.
    fold b0 in R. unfold is_u16 in R.
    destruct (Z.geb_spec b0 (num_bins h)).
    - rewrite u16_small by (unfold is_u16; lia). lia.
    - lia. }
  assert (Hbn : (Z.to_nat b < length (bins h))%nat) by lia.
  pose proof (nth_le_zsum (bins h) Hpos (Z.to_nat b)) as Hc.
  set (c := nth (Z.to_nat b) (bins h) 0) in *.
  rewrite (u16_small (c + 1)) by (unfold is_u16; lia).
  rewrite (u32_small (total_samples h + 1))
    by (pose proof (nth_le_zsum (bins h) Hpos 0%nat); lia).
  assert (Hpos' : Forall (fun x => 0 <= x) (upd (Z.to_nat b) (c + 1) (bins h))).
  { apply Forall_upd; [lia | exact Hpos]. }
  assert (Hsum' : zsum (upd (Z.to_nat b) (c + 1) (bins h))
                  = total_samples h + 1).
  { rewrite zsum_upd by exact Hbn. fold c. lia. }
  destruct (Z.gtb_spec (c + 1) (peak_count h)) as [Hgt | Hle];
    unfold hist_sound, hist_invariant; cbn;
    rewrite upd_length; repeat split; auto; try lia.
  - apply nth_upd_same. exact Hbn.
  - intros i. destruct (Nat.eq_dec (Z.to_nat b) i) as [<- | NE].
    + rewrite nth_upd_same by exact Hbn. lia.
    + rewrite nth_upd_other by exact NE. specialize (Hmax i). lia.
  - destruct (Nat.eq_dec (Z.to_nat b) (Z.to_nat (peak_bin h))) as [E | NE].
    + exfalso. unfold c in Hle. rewrite E, Hpk in Hle. lia.
    + rewrite nth_upd_other by exact NE. exact Hpk.
  - intros i. destruct (Nat.eq_dec (Z.to_nat b) i) as [<- | NE].
    + rewrite nth_upd_same by exact Hbn. lia.
    + rewrite nth_upd_other by exact NE. apply Hmax.
Qed.

Lemma histogram_fold_sound (values : list Z) :
  forall (m : Z) (h : Histogram_t),
    0 <= m -> m + Z.of_nat (length values) < 65536 ->
    hist_sound m h ->
    hist_sound (m + Z.of_nat (length values))
               (fold_left histogram_add values h).
Proof.
  induction values as [| v rest IH]; intros m h Hm Hlen Hs.
  - cbn. rewrite Z.add_0_r. exact Hs.
  - cbn [fold_left length] in *. rewrite Nat2Z.inj_succ in *.
    replace (m + Z.succ (Z.of_nat (length rest)))
      with ((m + 1) + Z.of_nat (length rest)) by lia.
    apply IH; [lia | lia |].
    apply histogram_add_sound; [lia | exact Hs].
Qed.

(** C8 (amended).  For a histogram set up by [histogram_init] and then
    filled by fewer than 65536 calls of [histogram_add] (and no
    [histogram_normalize]): the bin indexed by [peak_bin] holds
    [peak_count], no bin holds more than [peak_count], and the bins sum to
    [total_samples]. *)
Theorem histogram_add_keeps_invariant
  (nb lo hi : Z) (h0 : Histogram_t) (values : list Z)
  (Hnb : is_u16 nb)
  (Hinit : histogram_init nb lo hi = Some h0)
  (Hlen : Z.of_nat (length values) < 65536) :
  hist_invariant (fold_left histogram_add values h0).
Proof.
  pose proof (histogram_init_sound nb lo hi h0 Hnb Hinit) as H0.
  pose proof (histogram_fold_sound values 0 h0 ltac:(lia) ltac:(lia) H0) as H.
  apply H.
Qed.

Lemma histogram_add_keeps_invariant_witness :
  exists h0,
    histogram_init 4 0 (INT_TO_FIXED 4) = Some h0 /\
    hist_invariant
      (fold_left histogram_add [0; 0; INT_TO_FIXED 1; INT_TO_FIXED 3] h0).
Proof.
  eexists. split; [reflexivity |].
  apply (histogram_add_keeps_invariant 4 0 (INT_TO_FIXED 4)).
  - unfold is_u16. lia.
  - reflexivity.
  - cbn. lia.
Defined.

(** C8 (as stated) fails.  [histogram_normalize] rewrites the bins in
    place and leaves [peak_count] and [total_samples] alone: after three
    samples (two in bin 0, one in bin 1) and a normalisation the bins hold
    43690 and 21845, the peak bin no longer holds [peak_count] = 2 and the
    bins no longer sum to [total_samples] = 3. *)
Lemma histogram_normalize_breaks_invariant :
  exists h,
    hist_reachable h /\
    firstn 2 (bins h) = [43690; 21845] /\
    peak_bin h = 0 /\ peak_count h = 2 /\ total_samples h = 3 /\
    ~ hist_invariant h.
Proof.
  destruct (histogram_init 4 0 (INT_TO_FIXED 4)) as [h0 |] eqn:E;
    [| discriminate].
  exists (histogram_normalize
            (histogram_add (histogram_add (histogram_add h0 0) 0)
                           (INT_TO_FIXED 1))).
  split.
  { apply reach_normalize. repeat apply reach_add;
      try (unfold is_s32; vm_compute; split; congruence).
    apply (reach_init 4 0 (INT_TO_FIXED 4));
      try (vm_compute; split; congruence). exact E. }
  injection E as <-.
  repeat split; try (vm_compute; reflexivity).
  intros (H & _). vm_compute in H. discriminate H.
Qed.

(** ** Compression codecs *)

(** Finite checks over an interval of integers, decided by evaluation. *)
Definition zrange (lo : Z) (k : nat) : list Z :=
  map (fun i => lo + Z.of_nat i) (seq 0 k).

Lemma zrange_In (lo : Z) (k : nat) (x : Z) :
  lo <= x < lo + Z.of_nat k -> In x (zrange lo k).
Proof.
  intros H. unfold zrange. apply in_map_iff.
  exists (Z.to_nat (x - lo)). split; [lia |].
  apply in_seq. lia.
Qed.

Lemma zrange_forallb (P : Z -> bool) (lo : Z) (k : nat) :
  forallb P (zrange lo k) = true ->
  forall x, lo <= x < lo + Z.of_nat k -> P x = true.
Proof.
  intros H x Hx. rewrite forallb_forall in H. apply H, zrange_In, Hx.
Qed.

(** A delta in [-127, 127] is written as one byte that is not the escape
    byte and that the decoder sign-extends back to the delta. *)
Definition small_delta_ok (d : Z) : bool :=
  let b := u8 (Z.land (s16 d) 0xFF) in
  negb (b =? 0x80) && (s8 b =? d) && (s16 d >=? -128) && (s16 d <=? 127).

(** A delta outside [-128, 127] is written as the escape byte and two
    bytes from which the decoder rebuilds the delta. *)
Definition large_delta_ok (d : Z) : bool :=
  let hi := u8 (Z.shiftr (s16 d) 8) in
  let lo := u8 (Z.land (s16 d) 0xFF) in
  (s16 (Z.lor (Z.shiftl hi 8) lo) =? d)
  && negb ((s16 d >=? -128) && (s16 d <=? 127)).

Lemma small_delta_checked : forallb small_delta_ok (zrange (-127) 255) = true.
Proof. vm_compute. reflexivity. Qed.

Lemma large_delta_checked :
  forallb large_delta_ok (zrange (-255) 127 ++ zrange 128 128) = true.
Proof. vm_compute. reflexivity. Qed.

Lemma small_delta_spec (d : Z) :
  -127 <= d <= 127 -> small_delta_ok d = true.
Proof.
  intros H. apply (zrange_forallb _ _ _ small_delta_checked). lia.
Qed.

Lemma large_delta_spec (d : Z) :
  -255 <= d <= 255 -> d < -128 \/ 127 < d -> large_delta_ok d = true.
Proof.
  intros H1 H2. pose proof large_delta_checked as C.
  rewrite forallb_app in C. apply andb_prop in C. destruct C as [C1 C2].
  destruct H2.
  - apply (zrange_forallb _ _ _ C1). lia.
  - apply (zrange_forallb _ _ _ C2). lia.
Qed.

Lemma delta_decode_loop_small (last b : Z) (r1 : list Z) :
  b <> 0x80 ->
  delta_decode_loop last (b :: r1)
  = u8 (s16 (last + s8 b)) :: delta_decode_loop (s16 (last + s8 b)) r1.
Proof.
  intros Hb. cbn [delta_decode_loop].
  destruct (Z.eqb_spec b 128) as [E | _]; [contradiction |].
  destruct r1 as [| hi [| lo r3]]; reflexivity.
Qed.

Lemma delta_loop_roundtrip (rest : list Z) :
  forall last out_pos,
    is_u8 last -> Forall is_u8 rest -> no_delta_minus_128 last rest ->
    out_pos + Z.of_nat (length (delta_encode_loop last rest out_pos))
    < COMPRESSION_MAX_BLOCK_SIZE ->
    delta_decode_loop last (delta_encode_loop last rest out_pos) = rest.
Proof.
  induction rest as [| x rest' IH]; intros last out_pos Hl Hr Hn Hfit.
  - reflexivity.
  - inversion Hr as [| ? ? Hx Hr']; subst.
    destruct Hn as [Hne Hn'].
    cbn [delta_encode_loop] in *.
    destruct (Z.ltb_spec out_pos COMPRESSION_MAX_BLOCK_SIZE) as [Hg | Hg];
      [| cbn [length] in Hfit; lia].
    unfold is_u8 in Hl, Hx.
    assert (Hd : -255 <= x - last <= 255) by lia.
    destruct (Z_le_gt_dec (-127) (x - last)) as [Hlo | Hlo];
      [destruct (Z_le_gt_dec (x - last) 127) as [Hhi | Hhi] |].
    + (* one byte *)
      pose proof (small_delta_spec (x - last) ltac:(lia)) as C.
      unfold small_delta_ok in C.
      apply andb_prop in C. destruct C as [C C4].
      apply andb_prop in C. destruct C as [C C3].
      apply andb_prop in C. destruct C as [C1 C2].
      rewrite C3, C4 in *. cbn [andb] in *.
      apply negb_true_iff in C1. apply Z.eqb_neq in C1.
      apply Z.eqb_eq in C2.
      rewrite delta_decode_loop_small by exact C1.
      rewrite C2. replace (last + (x - last)) with x by lia.
      assert (E16 : s16 x = x) by (apply swrap_small; lia).
      rewrite E16. rewrite u8_small by exact Hx.
      f_equal. apply IH; try assumption.
      cbn [length] in Hfit. lia.
    + (* escape, two bytes *)
      pose proof (large_delta_spec (x - last) Hd ltac:(lia)) as C.
      unfold large_delta_ok in C.
      apply andb_prop in C. destruct C as [C1 C2].
      apply negb_true_iff in C2. rewrite C2 in *.
      apply Z.eqb_eq in C1.
      cbn [delta_decode_loop]. change (128 =? 128) with true. cbv iota.
      rewrite C1. replace (last + (x - last)) with x by lia.
      assert (E16 : s16 x = x) by (apply swrap_small; lia).
      rewrite E16. rewrite u8_small by exact Hx.
      f_equal. apply IH; try assumption.
      cbn [length] in Hfit. lia.
    + pose proof (large_delta_spec (x - last) Hd ltac:(lia)) as C.
      unfold large_delta_ok in C.
      apply andb_prop in C. destruct C as [C1 C2].
      apply negb_true_iff in C2. rewrite C2 in *.
      apply Z.eqb_eq in C1.
      cbn [delta_decode_loop]. change (128 =? 128) with true. cbv iota.
      rewrite C1. replace (last + (x - last)) with x by lia.
      assert (E16 : s16 x = x) by (apply swrap_small; lia).
      rewrite E16. rewrite u8_small by exact Hx.
      f_equal. apply IH; try assumption.
      cbn [length] in Hfit. lia.
Qed.

Lemma rle_run_length_spec (tl : list Z) :
  forall symbol r,
    1 <= r <= 255 ->
    let run := rle_run_length symbol tl r in
    r <= run <= 255 /\
    run - r <= Z.of_nat (length tl) /\
    firstn (Z.to_nat (run - r)) tl = repeat symbol (Z.to_nat (run - r)).
Proof.
  induction tl as [| x tl' IH]; intros symbol r Hr; cbn [rle_run_length].
  - cbn zeta. rewrite Z.sub_diag. cbn. repeat split; lia.
  - unfold RLE_MAX_RUN_LENGTH.
    destruct (Z.eqb_spec x symbol) as [-> | NE]; cbn [andb].
    + destruct (Z.ltb_spec r 255) as [Hlt | Hge].
      * specialize (IH symbol (r + 1) ltac:(lia)). cbn zeta in IH.
        destruct IH as (I1 & I2 & I3). cbn zeta.
        set (run := rle_run_length symbol tl' (r + 1)) in *.
        cbn [length]. rewrite Nat2Z.inj_succ.
        repeat split; try lia.
        replace (Z.to_nat (run - r)) with (S (Z.to_nat (run - (r + 1))))
          by lia.
        cbn [firstn repeat]. f_equal. exact I3.
      * cbn zeta. rewrite Z.sub_diag. cbn. repeat split; lia.
    + cbn zeta. rewrite Z.sub_diag. cbn. repeat split; lia.
Qed.

Lemma rle_emit_run_all (k : nat) :
  forall symbol pos,
    pos + Z.of_nat k <= COMPRESSION_MAX_BLOCK_SIZE ->
    rle_emit_run k symbol pos = repeat symbol k.
Proof.
  induction k as [| k IH]; intros symbol pos H; cbn [rle_emit_run repeat].
  - reflexivity.
  - rewrite Nat2Z.inj_succ in H.
    destruct (Z.ltb_spec pos COMPRESSION_MAX_BLOCK_SIZE); [| lia].
    f_equal. apply IH. lia.
Qed.

Lemma rle_loop_roundtrip (fuel : nat) :
  forall rest out_pos dec_pos,
    (length rest <= fuel)%nat ->
    Forall is_u8 rest ->
    out_pos + Z.of_nat (length (rle_encode_loop fuel rest out_pos))
    < COMPRESSION_MAX_BLOCK_SIZE - 2 ->
    dec_pos + Z.of_nat (length rest) <= COMPRESSION_MAX_BLOCK_SIZE ->
    rle_decode_loop (rle_encode_loop fuel rest out_pos) dec_pos = rest.
Proof.
  induction fuel as [| fuel IH]; intros rest out_pos dec_pos Hf Hb Hfit Hdec.
  - destruct rest; [reflexivity | cbn in Hf; lia].
  - destruct rest as [| symbol tl]; [reflexivity |].
    inversion Hb as [| ? ? Hs Hb']; subst. unfold is_u8 in Hs.
    cbn [rle_encode_loop] in *.
    destruct (Z.ltb_spec out_pos (COMPRESSION_MAX_BLOCK_SIZE - 2)) as [Hg | Hg];
      [| cbn [length] in Hfit; lia].
    pose proof (rle_run_length_spec tl symbol 1 ltac:(lia)) as R.
    cbn zeta in R. destruct R as (R1 & R2 & R3).
    set (run := rle_run_length symbol tl 1) in *.
    cbn [length] in Hf, Hdec. rewrite Nat2Z.inj_succ in Hdec.
    destruct (Z.geb_spec run 3) as [Hrun | Hrun].
    + (* a run of at least three *)
      cbn [length] in Hfit.
      cbn [rle_decode_loop]. change (0 =? 0) with true. cbv iota.
      destruct (Z.eqb_spec run 0) as [E0 | _]; [lia |].
      destruct (Z.eqb_spec run 1) as [E1 | _]; [lia |].
      rewrite rle_emit_run_all by lia.
      rewrite repeat_length.
      rewrite IH.
      * rewrite <- (firstn_skipn (Z.to_nat (run - 1)) tl) at 2.
        rewrite R3.
        replace (Z.to_nat run) with (S (Z.to_nat (run - 1))) by lia.
        reflexivity.
      * rewrite length_skipn. lia.
      * apply Forall_forall. intros y Hy.
        rewrite Forall_forall in Hb'. apply Hb'.
        rewrite <- (firstn_skipn (Z.to_nat (run - 1)) tl).
        apply in_or_app. right. exact Hy.
      * lia.
      * rewrite length_skipn. lia.
    + destruct (Z.eqb_spec symbol 0) as [-> | NE].
      * (* a literal zero byte, escaped *)
        cbn [length] in Hfit.
        cbn [rle_decode_loop]. change (0 =? 0) with true.
        change (1 =? 0) with false. change (1 =? 1) with true. cbv iota.
        f_equal. apply IH; try assumption; lia.
      * (* any other literal *)
        cbn [length] in Hfit.
        cbn [rle_decode_loop].
        destruct (Z.eqb_spec symbol 0) as [E | _]; [contradiction |].
        f_equal. apply IH; try assumption; lia.
Qed.

(** The first byte has no predecessor; the rest must avoid the delta
    -128. *)
Definition delta_escape_free (s : list Z) : Prop :=
  match s with
  | [] => True
  | x :: rest => no_delta_minus_128 x rest
  end.

(** C1 (amended).  For every byte sequence [s]:
    - if no byte of [s] is exactly 128 below its predecessor and the output
      of [delta_encode] is shorter than the block size of 1024 bytes, then
      [delta_decode (delta_encode s) = s];
    - if [s] has at most 1024 bytes and the output of [rle_encode] is
      shorter than 1022 bytes, then [rle_decode (rle_encode s) = s]. *)
Theorem codec_roundtrip_within_block (s : list Z) (Hbytes : Forall is_u8 s) :
  (delta_escape_free s ->
   Z.of_nat (length (delta_encode s)) < COMPRESSION_MAX_BLOCK_SIZE ->
   delta_decode (delta_encode s) = s) /\
  (Z.of_nat (length s) <= COMPRESSION_MAX_BLOCK_SIZE ->
   Z.of_nat (length (rle_encode s)) < COMPRESSION_MAX_BLOCK_SIZE - 2 ->
   rle_decode (rle_encode s) = s).
Proof.
  split.
  - intros Hfree Hfit. destruct s as [| x rest]; [reflexivity |].
    inversion Hbytes as [| ? ? Hx Hr]; subst.
    cbn [delta_encode delta_decode delta_escape_free] in *.
    rewrite u8_small by exact Hx. f_equal.
    apply delta_loop_roundtrip; try assumption.
    cbn [length] in Hfit. lia.
  - intros Hlen Hfit. unfold rle_decode, rle_encode in *.
    apply rle_loop_roundtrip; try assumption; lia.
Qed.

Lemma codec_roundtrip_within_block_witness :
  let s := [0; 200; 10; 255; 0; 0; 0; 0; 7; 7; 7; 1] in
  delta_decode (delta_encode s) = s /\ rle_decode (rle_encode s) = s.
Proof.
  intros s.
  assert (Hbytes : Forall is_u8 s).
  { unfold s. repeat constructor; vm_compute; congruence. }
  destruct (codec_roundtrip_within_block s Hbytes) as [Hd Hr].
  split.
  - apply Hd.
    + unfold s. cbn. repeat split; lia.
    + vm_compute. reflexivity.
  - apply Hr.
    + vm_compute. congruence.
    + vm_compute. reflexivity.
Defined.

(** C1 (as stated) fails in both codecs on inputs whose encoded form is
    far below the block size.  Delta: in [128; 0; 0; 0] the second byte is
    128 below the first, the encoder writes that delta as the single byte
    0x80, and the decoder reads 0x80 as the escape byte and swallows the
    next two bytes.  Run-length: 2000 equal bytes are encoded in 24 bytes,
    and the decoder stops writing runs after 1024 output bytes. *)
Lemma codec_roundtrip_fails :
  (delta_encode [128; 0; 0; 0] = [128; 128; 0; 0] /\
   delta_decode (delta_encode [128; 0; 0; 0]) = [128; 128] /\
   delta_decode (delta_encode [128; 0; 0; 0]) <> [128; 0; 0; 0]) /\
  (length (rle_encode (repeat 170 2000)) = 24%nat /\
   length (rle_decode (rle_encode (repeat 170 2000))) = 1024%nat /\
   rle_decode (rle_encode (repeat 170 2000)) <> repeat 170 2000).
Proof.
  split; split; try (vm_compute; reflexivity); split;
    try (vm_compute; reflexivity).
  - vm_compute. discriminate.
  - intros E. apply (f_equal (@length Z)) in E.
    rewrite repeat_length in E. vm_compute in E. discriminate E.
Qed.

(** ** Fingerprinting engine *)

(** The engine right after [fingerprinting_start_capture]. *)
Definition capture_started : fp_memory :=
  fingerprinting_start_capture (mkMemory zero_capture_state zero_fingerprint) 0.

(** A three-byte frame, 3000 us long, received at -70 dBm. *)
Definition sample_frame : Frame_t :=
  mkFrame [1; 2; 3] 3 5000 (u16 (-70)) 433920000 0 0 3000 0 false.

(** An empty frame: [length] is 0, which the ingest interface admits. *)
Definition empty_frame : Frame_t :=
  mkFrame [] 0 5000 (u16 (-70)) 433920000 0 0 3000 0 false.

Example process_sample_frame :
  exists m,
    fingerprinting_process_frame capture_started sample_frame = Some m /\
    nth 0 (symbol_timings (capture_state m)) 0 = 1000 /\
    nth 0 (rssi_envelope (capture_state m)) 0 = 58 /\
    frames_captured (capture_state m) = 1.
Proof. eexists. split; [vm_compute; reflexivity |]. repeat split. Qed.

Example crc16_ccitt_check_value :
  fold_left crc16_byte [49; 50; 51; 52; 53; 54; 55; 56; 57] 0xFFFF = 0x29B1.
Proof. vm_compute. reflexivity. Qed.

Lemma le_bytes_length (k : nat) (v : Z) : length (le_bytes k v) = k.
Proof. revert v. induction k; intros v; cbn; auto. Qed.

(** The hash does not read the hash field, provided the signature has its
    16 entries. *)
Lemma calculate_hash_ignores_hash (fp : RFFingerprint_t) (h : Z) :
  length (rssi_signature fp) = 16%nat ->
  fingerprinting_calculate_hash (set_unique_hash fp h)
  = fingerprinting_calculate_hash fp.
Proof.
  intros Hsig. unfold fingerprinting_calculate_hash. f_equal.
  change (Z.to_nat (u16 (sizeof_RFFingerprint_t - 2))) with 30%nat.
  unfold fingerprint_image, set_unique_hash.
  cbn [drift_mean drift_variance rise_time_avg fall_time_avg
       clock_stability_ppm rssi_signature padding unique_hash].
  set (a := le_bytes 4 (drift_mean fp)).
  set (b := le_bytes 4 (drift_variance fp)).
  set (c := le_bytes 2 (rise_time_avg fp)).
  set (d := le_bytes 2 (fall_time_avg fp)).
  assert (La : length a = 4%nat) by apply le_bytes_length.
  assert (Lb : length b = 4%nat) by apply le_bytes_length.
  assert (Lc : length c = 2%nat) by apply le_bytes_length.
  assert (Ld : length d = 2%nat) by apply le_bytes_length.
  assert (E : forall t : list Z,
             a ++ b ++ c ++ d ++ [clock_stability_ppm fp]
               ++ rssi_signature fp ++ [padding fp] ++ t
             = (a ++ b ++ c ++ d ++ [clock_stability_ppm fp]
                  ++ rssi_signature fp ++ [padding fp]) ++ t).
  { intros t. repeat rewrite <- app_assoc. reflexivity. }
  rewrite !E.
  set (body := a ++ b ++ c ++ d ++ [clock_stability_ppm fp]
                 ++ rssi_signature fp ++ [padding fp]).
  assert (L : length body = 30%nat).
  { unfold body. repeat rewrite length_app.
    rewrite La, Lb, Lc, Ld, Hsig. reflexivity. }
  assert (F : forall t : list Z, firstn 30 (body ++ t) = body).
  { intros t. rewrite firstn_app, L, Nat.sub_diag.
    rewrite firstn_all2 by lia. cbn [firstn]. apply app_nil_r. }
  rewrite !F. reflexivity.
Qed.

Lemma rssi_envelope_after_analyses (cs : FingerprintCaptureState_t) :
  rssi_envelope
    (fingerprinting_analyze_clock_stability
       (fingerprinting_analyze_rise_fall_slopes
          (fingerprinting_analyze_timing_drift cs)))
  = rssi_envelope cs.
Proof.
  unfold fingerprinting_analyze_clock_stability,
    fingerprinting_analyze_rise_fall_slopes,
    fingerprinting_analyze_timing_drift.
  repeat match goal with
         | |- context [if ?c then _ else _] => destruct c
         | |- context [let '(_, _) := ?p in _] => destruct p
         end; reflexivity.
Qed.

(** When the pointer argument is [&capture_state.current_fingerprint], as
    in the call from [fingerprinting_process_frame], the record left
    there carries the CRC of its other bytes. *)
Lemma generate_in_place_hash_matches (m : fp_memory) :
  (16 <= length (rssi_envelope (capture_state m)))%nat ->
  hash_matches
    (load (fingerprinting_generate_fingerprint m ptr_current_fingerprint)
          ptr_current_fingerprint).
Proof.
  intros Henv. unfold hash_matches, fingerprinting_generate_fingerprint.
  cbn [load store capture_state caller_fingerprint set_state
       set_current_fingerprint current_fingerprint].
  set (cs3 := fingerprinting_analyze_clock_stability _).
  unfold fingerprinting_analyze_rssi_envelope.
  cbn [set_current_fingerprint current_fingerprint].
  set (fp := mkFingerprint _ _ _ _ _ _ _ _).
  rewrite calculate_hash_ignores_hash; [reflexivity |].
  unfold fp. cbn [rssi_signature]. apply firstn_length_le.
  unfold cs3. rewrite rssi_envelope_after_analyses. exact Henv.
Qed.

Lemma unique_hash_after_analyses (cs : FingerprintCaptureState_t) :
  unique_hash
    (current_fingerprint
       (fingerprinting_analyze_rssi_envelope
          (fingerprinting_analyze_clock_stability
             (fingerprinting_analyze_rise_fall_slopes
                (fingerprinting_analyze_timing_drift cs)))))
  = unique_hash (current_fingerprint cs).
Proof.
  unfold fingerprinting_analyze_rssi_envelope,
    fingerprinting_analyze_clock_stability,
    fingerprinting_analyze_rise_fall_slopes,
    fingerprinting_analyze_timing_drift.
  repeat match goal with
         | |- context [if ?c then _ else _] => destruct c
         | |- context [let '(_, _) := ?p in _] => destruct p
         end; reflexivity.
Qed.

(** When the pointer argument is a record of the caller, the hash written
    through it is overwritten by the copy: the record ends up with the
    hash that [capture_state.current_fingerprint] held before the call. *)
Lemma generate_for_caller_keeps_old_hash (m : fp_memory) :
  unique_hash
    (load (fingerprinting_generate_fingerprint m ptr_caller_fingerprint)
          ptr_caller_fingerprint)
  = unique_hash (current_fingerprint (capture_state m)).
Proof.
  unfold fingerprinting_generate_fingerprint.
  cbn [load store capture_state caller_fingerprint].
  apply unique_hash_after_analyses.
Qed.

(** C2 (code defect).  After [fingerprinting_start_capture] and one frame,
    [fingerprinting_generate_fingerprint] is called with a record of the
    caller: the record it produces has [unique_hash] 0, while the
    CRC-16-CCITT of its other bytes is 44690.  The hash is computed before
    the record is filled in, not last. *)
Theorem generate_fingerprint_hash_not_last :
  exists m,
    fingerprinting_process_frame capture_started sample_frame = Some m /\
    let fp := load (fingerprinting_generate_fingerprint
                      m ptr_caller_fingerprint)
                   ptr_caller_fingerprint in
    nth 0 (rssi_signature fp) 0 = 58 /\
    unique_hash fp = 0 /\
    fingerprinting_calculate_hash fp = 44690 /\
    ~ hash_matches fp.
Proof.
  eexists. split; [vm_compute; reflexivity |].
  cbv zeta. repeat split; try (vm_compute; reflexivity).
  unfold hash_matches. vm_compute. discriminate.
Qed.

(** While sampling, with room left in the symbol-timing buffer, a frame
    of length 0 makes [frame->duration_us / frame->length] divide by
    zero. *)
Lemma process_frame_divides_by_length (m : fp_memory) (frame : Frame_t) :
  state (capture_state m) = FINGERPRINT_STATE_SAMPLING ->
  symbol_count (capture_state m) < FINGERPRINT_SAMPLE_COUNT ->
  frame_length frame = 0 ->
  fingerprinting_process_frame m frame = None.
Proof.
  intros Hs Hc Hl. unfold fingerprinting_process_frame.
  rewrite Hs. cbn [is_sampling negb].
  destruct (Z.ltb_spec (symbol_count (capture_state m))
                       FINGERPRINT_SAMPLE_COUNT) as [_ | H]; [| lia].
  rewrite Hl. cbn [Z.eqb].
  destruct (if last_frame_timestamp (capture_state m) >? 0 then _ else _).
  reflexivity.
Qed.

(** C10 (code defect).  The first frame after
    [fingerprinting_start_capture], with [length] 0: the symbol-timing
    update divides by zero. *)
Theorem process_frame_empty_frame_divides_by_zero :
  state (capture_state capture_started) = FINGERPRINT_STATE_SAMPLING /\
  frame_length empty_frame = 0 /\
  fingerprinting_process_frame capture_started empty_frame = None.
Proof. repeat split. Qed.

(* ================================================================= *)
(** * Part III: further properties of the code                        *)
(* ================================================================= *)

(** Conversions unfolded to their arithmetic, for [lia]. *)
Ltac unwrap :=
  unfold s8, s16, s32, s64, u8, u16, u32, u64, swrap, uwrap in *;
  change (2 ^ (8 - 1)) with 128 in *; change (2 ^ 8) with 256 in *;
  change (2 ^ (16 - 1)) with 32768 in *; change (2 ^ 16) with 65536 in *;
  change (2 ^ (32 - 1)) with 2147483648 in *;
  change (2 ^ 32) with 4294967296 in *;
  change (2 ^ (64 - 1)) with 9223372036854775808 in *;
  change (2 ^ 64) with 18446744073709551616 in *.

Ltac wrap_lia := unwrap; Z.to_euclidean_division_equations; lia.

(** ** Fixed-point library, continued *)

(** [fixed_mul(a, FIXED_ONE)] on every 32-bit value: the identity on
    non-negative values, one unit too low (wrapping at the most negative
    value) on negative ones. *)
Theorem fixed_mul_one_exact (a : Z) (Ha : is_s32 a) :
  fixed_mul a FIXED_ONE = (if a >=? 0 then a else s32 (a - 1)).
Proof.
  destruct (Z.geb_spec a 0).
  - apply fixed_mul_one_nonneg; [exact Ha | lia].
  - apply fixed_mul_one_neg; [exact Ha | lia].
Qed.

Lemma fixed_mul_one_exact_witness :
  fixed_mul (INT_TO_FIXED 3) FIXED_ONE = INT_TO_FIXED 3 /\
  fixed_mul (INT_TO_FIXED (-3)) FIXED_ONE = INT_TO_FIXED (-3) - 1.
Proof.
  split.
  - apply (fixed_mul_one_exact (INT_TO_FIXED 3)).
    unfold is_s32. vm_compute. split; congruence.
  - apply (fixed_mul_one_exact (INT_TO_FIXED (-3))).
    unfold is_s32. vm_compute. split; congruence.
Defined.

(** [fixed_div(a, a)] on every non-zero 32-bit value: [FIXED_ONE] for a
    positive [a], one unit less for a negative [a]. *)
Theorem fixed_div_self_exact (a : Z) (Ha : is_s32 a) (Hnz : a <> 0) :
  fixed_div a a = (if a >? 0 then FIXED_ONE else FIXED_ONE - 1).
Proof.
  destruct (Z.gtb_spec a 0).
  - apply fixed_div_self_pos; [exact Ha | lia].
  - apply fixed_div_self_neg; [exact Ha | lia].
Qed.

Lemma fixed_div_self_exact_witness :
  fixed_div 7 7 = FIXED_ONE /\ fixed_div (-7) (-7) = FIXED_ONE - 1.
Proof.
  split.
  - apply (fixed_div_self_exact 7); [unfold is_s32; lia | lia].
  - apply (fixed_div_self_exact (-7)); [unfold is_s32; lia | lia].
Defined.

(** The saturating addition and subtraction return the exact sum and
    difference clamped to [[FIXED_MIN, FIXED_MAX]]. *)
Theorem fixed_add_sub_sat_clamp (a b : Z) (Ha : is_s32 a) (Hb : is_s32 b) :
  fixed_add_sat a b = Z.max FIXED_MIN (Z.min FIXED_MAX (a + b)) /\
  fixed_sub_sat a b = Z.max FIXED_MIN (Z.min FIXED_MAX (a - b)).
Proof.
  unfold fixed_add_sat, fixed_sub_sat, is_s32 in *.
  change FIXED_MAX with 2147483647. change FIXED_MIN with (-2147483648).
  split.
  - destruct (Z.gtb_spec b 0); destruct (Z.ltb_spec b 0);
      destruct (Z.ltb_spec (s32 (a + b)) a);
      destruct (Z.gtb_spec (s32 (a + b)) a); cbn [andb]; wrap_lia.
  - destruct (Z.gtb_spec b 0); destruct (Z.ltb_spec b 0);
      destruct (Z.ltb_spec (s32 (a - b)) a);
      destruct (Z.gtb_spec (s32 (a - b)) a); cbn [andb]; wrap_lia.
Qed.

Lemma fixed_add_sub_sat_clamp_witness :
  fixed_add_sat FIXED_MAX FIXED_ONE = FIXED_MAX /\
  fixed_sub_sat FIXED_MIN FIXED_ONE = FIXED_MIN.
Proof.
  assert (H1 : is_s32 FIXED_MAX) by (unfold is_s32; vm_compute; split; congruence).
  assert (H2 : is_s32 FIXED_ONE) by (unfold is_s32; vm_compute; split; congruence).
  assert (H3 : is_s32 FIXED_MIN) by (unfold is_s32; vm_compute; split; congruence).
  split.
  - exact (proj1 (fixed_add_sub_sat_clamp FIXED_MAX FIXED_ONE H1 H2)).
  - exact (proj2 (fixed_add_sub_sat_clamp FIXED_MIN FIXED_ONE H3 H2)).
Defined.

(** [fixed_mul_sat] never returns a product.  When the shifted product
    exceeds [FIXED_MAX] it returns [FIXED_MAX]; in every other case the
    test against the unsigned constant [FIXED_MIN] succeeds and the
    function returns [FIXED_MIN]. *)
Theorem fixed_mul_sat_only_saturates (a b : Z) (Ha : is_s32 a) (Hb : is_s32 b) :
  fixed_mul_sat a b
  = (if Z.shiftr (a * b) 16 >? FIXED_MAX then FIXED_MAX else FIXED_MIN).
Proof.
  unfold fixed_mul_sat, is_s32 in *. change FIXED_FRACTIONAL_BITS with 16.
  rewrite (s64_small (a * b)) by nia.
  change FIXED_MAX with 2147483647.
  destruct (Z.gtb_spec (Z.shiftr (a * b) 16) 2147483647); [reflexivity |].
  destruct (Z.ltb_spec (Z.shiftr (a * b) 16) 2147483648); [reflexivity | lia].
Qed.

Lemma fixed_mul_sat_only_saturates_witness :
  fixed_mul_sat FIXED_ONE FIXED_ONE = FIXED_MIN.
Proof.
  apply (fixed_mul_sat_only_saturates FIXED_ONE FIXED_ONE);
    unfold is_s32; vm_compute; split; congruence.
Defined.

Lemma fixed_log_reduce_spec (fuel : nat) :
  forall y k,
    FIXED_ONE <= y -> y < FIXED_TWO * 2 ^ Z.of_nat fuel ->
    0 <= k -> k + Z.of_nat fuel < 2147483648 ->
    exists y' k',
      fixed_log_reduce fuel y k = (y', k') /\
      FIXED_ONE <= y' < FIXED_TWO /\ k <= k' /\ y' = y / 2 ^ (k' - k).
Proof.
  change FIXED_ONE with 65536. change FIXED_TWO with 131072.
  induction fuel as [| fuel IH]; intros y k Hlo Hhi Hk Hkf.
  - exists y, k. cbn [fixed_log_reduce]. cbn in Hhi.
    rewrite Z.sub_diag. cbn. rewrite Z.div_1_r. repeat split; lia.
  - cbn [fixed_log_reduce]. change FIXED_TWO with 131072.
    rewrite Nat2Z.inj_succ in Hhi, Hkf.
    rewrite Z.pow_succ_r in Hhi by lia.
    destruct (Z.geb_spec y 131072) as [Hge | Hlt].
    + rewrite Z.shiftr_div_pow2 by lia. change (2 ^ 1) with 2.
      rewrite (s32_small (k + 1)) by (unfold is_s32; lia).
      assert (H2lo : 65536 <= y / 2).
      { apply Z.div_le_lower_bound; lia. }
      assert (H2hi : y / 2 < 131072 * 2 ^ Z.of_nat fuel).
      { apply Z.div_lt_upper_bound; lia. }
      destruct (IH (y / 2) (k + 1) H2lo H2hi ltac:(lia) ltac:(lia))
        as (y' & k' & E & Hr & Hk' & Hy').
      exists y', k'. split; [exact E |]. split; [exact Hr |].
      split; [lia |].
      rewrite Hy'. rewrite Z.div_div by (try apply Z.pow_pos_nonneg; lia).
      f_equal. replace (k' - k) with (Z.succ (k' - (k + 1))) by lia.
      rewrite Z.pow_succ_r by lia. reflexivity.
    + exists y, k. rewrite Z.sub_diag. cbn. rewrite Z.div_1_r.
      repeat split; lia.
Qed.

(** The range reduction of [fixed_log]: for every 32-bit argument of at
    least 1.0 the loop stops with [y] in [[1.0, 2.0)], [y] is the argument
    shifted right by [int_part], and [int_part] is the integer part of the
    base-2 logarithm of the represented value
    ([Z.log2 x = int_part + 16]). *)
Theorem fixed_log_reduce_normalises (x : Z)
  (Hlo : FIXED_ONE <= x) (Hhi : x <= FIXED_MAX) :
  exists y int_part,
    fixed_log_reduce 32 x 0 = (y, int_part) /\
    FIXED_ONE <= y < FIXED_TWO /\
    y = Z.shiftr x int_part /\
    0 <= int_part <= 14 /\
    Z.log2 x = int_part + 16.
Proof.
  change FIXED_MAX with 2147483647 in Hhi.
  destruct (fixed_log_reduce_spec 32 x 0 Hlo) as (y & k & E & Hr & Hk & Hy).
  - change FIXED_TWO with 131072. change (2 ^ Z.of_nat 32) with 4294967296.
    lia.
  - lia.
  - cbn. lia.
  - rewrite Z.sub_0_r in Hy.
    change FIXED_ONE with 65536 in *. change FIXED_TWO with 131072 in *.
    assert (Hp : 0 < 2 ^ k) by (apply Z.pow_pos_nonneg; lia).
    assert (Hb : 2 ^ (k + 16) <= x < 2 ^ (k + 17)).
    { rewrite !Z.pow_add_r by lia.
      change (2 ^ 16) with 65536. change (2 ^ 17) with 131072.
      pose proof (Z.div_mod x (2 ^ k) ltac:(lia)) as Hdm.
      pose proof (Z.mod_pos_bound x (2 ^ k) Hp) as Hm.
      rewrite <- Hy in Hdm. nia. }
    assert (Hk14 : k <= 14).
    { destruct (Z_le_gt_dec k 14) as [? | Hgt]; [assumption | exfalso].
      assert (2 ^ 31 <= 2 ^ (k + 16)) by (apply Z.pow_le_mono_r; lia).
      change (2 ^ 31) with 2147483648 in *. lia. }
    exists y, k. split; [exact E |]. split; [exact Hr |].
    split; [rewrite Z.shiftr_div_pow2 by lia; exact Hy |].
    split; [lia |].
    apply Z.log2_unique; [lia |].
    replace (Z.succ (k + 16)) with (k + 17) by lia. exact Hb.
Qed.

Lemma fixed_log_reduce_normalises_witness :
  exists y int_part,
    fixed_log_reduce 32 (INT_TO_FIXED 10) 0 = (y, int_part) /\
    FIXED_ONE <= y < FIXED_TWO /\
    y = Z.shiftr (INT_TO_FIXED 10) int_part /\
    0 <= int_part <= 14 /\
    Z.log2 (INT_TO_FIXED 10) = int_part + 16.
Proof.
  apply (fixed_log_reduce_normalises (INT_TO_FIXED 10));
    vm_compute; congruence.
Defined.

(** ** Statistics library, continued *)

(** What [welford_add_sample] keeps true of the extremes: [seen] are the
    samples fed so far. *)
Definition extremes_of (seen : list Z) (st : WelfordState_t) : Prop :=
  (forall x, In x seen -> wf_min_val st <= x <= wf_max_val st) /\
  (seen = [] -> wf_min_val st = FIXED_MAX /\ wf_max_val st = FIXED_MIN) /\
  (seen <> [] -> In (wf_min_val st) seen /\ In (wf_max_val st) seen).

Lemma welford_add_sample_extremes (seen : list Z) (st : WelfordState_t) (x : Z) :
  is_s32 x -> extremes_of seen st ->
  extremes_of (seen ++ [x]) (welford_add_sample st x).
Proof.
  intros Hx (Hall & Hnil & Hin). unfold is_s32 in Hx.
  unfold extremes_of, welford_add_sample; cbn [wf_min_val wf_max_val].
  assert (Hcase : seen = [] \/ seen <> []) by (destruct seen; [left | right]; congruence).
  destruct (Z.ltb_spec x (wf_min_val st)) as [Hlt | Hge];
    destruct (Z.gtb_spec x (wf_max_val st)) as [Hgt | Hle].
  all: split; [| split].
  all: try (intros E; destruct seen; discriminate E).
  all: try (intros y Hy; apply in_app_or in Hy; destruct Hy as [Hy | [<- | []]];
            [specialize (Hall y Hy); lia | ]).
  all: try (intros _; destruct Hcase as [E | NE];
            [ specialize (Hnil E); destruct Hnil as [E1 E2];
              change FIXED_MAX with 2147483647 in E1;
              change FIXED_MIN with (-2147483648) in E2;
              subst seen; cbn [app In]; try lia; try (split; left; lia)
            | destruct (Hin NE) as [I1 I2];
              split; apply in_or_app; try (left; assumption);
              right; left; reflexivity ]).
  all: try lia.
  all: destruct Hcase as [E | NE];
    [ destruct (Hnil E) as [E1 E2];
      change FIXED_MAX with 2147483647 in E1;
      change FIXED_MIN with (-2147483648) in E2; lia
    | destruct (Hin NE) as [I1 I2];
      pose proof (Hall _ I1); pose proof (Hall _ I2); lia ].
Qed.

Lemma welford_fold_extremes (xs : list Z) :
  forall seen st,
    Forall is_s32 xs -> extremes_of seen st ->
    extremes_of (seen ++ xs) (fold_left welford_add_sample xs st).
Proof.
  induction xs as [| x rest IH]; intros seen st Hr Hinv.
  - rewrite app_nil_r. exact Hinv.
  - inversion Hr as [| ? ? Hx Hr']; subst. cbn [fold_left].
    replace (seen ++ x :: rest) with ((seen ++ [x]) ++ rest)
      by (rewrite <- app_assoc; reflexivity).
    apply IH; [exact Hr' |].
    apply welford_add_sample_extremes; assumption.
Qed.

(** The accumulator tracks the extremes exactly: after at least one
    32-bit sample, [min_val] and [max_val] are samples and every sample
    lies between them. *)
Theorem welford_tracks_extremes (xs : list Z)
  (Hrange : Forall is_s32 xs) (Hne : xs <> []) :
  let st := welford_run xs in
  In (wf_min_val st) xs /\ In (wf_max_val st) xs /\
  forall x, In x xs -> wf_min_val st <= x <= wf_max_val st.
Proof.
  intros st.
  assert (H0 : extremes_of [] welford_init).
  { unfold extremes_of. split; [intros x [] |].
    split; [intros _; split; reflexivity | intros E; contradiction]. }
  destruct (welford_fold_extremes xs [] welford_init Hrange H0)
    as (Hall & _ & Hin).
  cbn [app] in *. destruct (Hin Hne) as [I1 I2].
  repeat split; try assumption; apply Hall; assumption.
Qed.

Lemma welford_tracks_extremes_witness :
  let st := welford_run [5; -3; 12; 0] in
  In (wf_min_val st) [5; -3; 12; 0] /\ In (wf_max_val st) [5; -3; 12; 0] /\
  forall x, In x [5; -3; 12; 0] -> wf_min_val st <= x <= wf_max_val st.
Proof.
  apply (welford_tracks_extremes [5; -3; 12; 0]).
  - repeat constructor; unfold is_s32; lia.
  - discriminate.
Defined.

Lemma hist_sound_total_nonneg (m : Z) (h : Histogram_t) :
  hist_sound m h -> 0 <= total_samples h.
Proof.
  intros (_ & _ & Hpos & _ & _ & _ & _ & Hsum).
  pose proof (nth_le_zsum (bins h) Hpos 0%nat). lia.
Qed.

Lemma histogram_add_total (m : Z) (h : Histogram_t) (v : Z) :
  0 <= m < 65535 -> hist_sound m h ->
  total_samples (histogram_add h v)
  = total_samples h
    + (if (v <? min_val h) || (v >? max_val h) then 0 else 1) /\
  min_val (histogram_add h v) = min_val h /\
  max_val (histogram_add h v) = max_val h.
Proof.
  intros Hm Hs. pose proof (hist_sound_total_nonneg m h Hs) as H0.
  destruct Hs as (_ & _ & _ & _ & Htot & _).
  unfold histogram_add.
  destruct ((v <? min_val h) || (v >? max_val h)).
  - repeat split; lia.
  - match goal with
    | |- context [if ?c then _ else _] => destruct c
    end; cbn [total_samples min_val max_val];
      rewrite u32_small by lia; repeat split; lia.
Qed.

Lemma histogram_fold_total (values : list Z) :
  forall (m : Z) (h : Histogram_t),
    0 <= m -> m + Z.of_nat (length values) < 65536 ->
    hist_sound m h ->
    total_samples (fold_left histogram_add values h)
    = total_samples h
      + Z.of_nat (length (filter (fun v => (min_val h <=? v)
                                           && (v <=? max_val h)) values)).
Proof.
  induction values as [| v rest IH]; intros m h Hm Hlen Hs.
  - cbn. lia.
  - cbn [fold_left length filter] in *. rewrite Nat2Z.inj_succ in Hlen.
    destruct (histogram_add_total m h v ltac:(lia) Hs) as (Et & Emin & Emax).
    rewrite (IH (m + 1)); [| lia | lia | apply histogram_add_sound; [lia | exact Hs]].
    rewrite Et, Emin, Emax.
    destruct (Z.ltb_spec v (min_val h)); destruct (Z.gtb_spec v (max_val h));
      destruct (Z.leb_spec (min_val h) v); destruct (Z.leb_spec v (max_val h));
      cbn [orb andb length]; try lia.
Qed.

(** [total_samples] counts exactly the offered values that lie in
    [[min_val, max_val]]: values outside the range are dropped, every
    value inside it is counted once (for fewer than 65536 offered
    values). *)
Theorem histogram_counts_values_in_range
  (nb lo hi : Z) (h0 : Histogram_t) (values : list Z)
  (Hnb : is_u16 nb)
  (Hinit : histogram_init nb lo hi = Some h0)
  (Hlen : Z.of_nat (length values) < 65536) :
  total_samples (fold_left histogram_add values h0)
  = Z.of_nat (length (filter (fun v => (lo <=? v) && (v <=? hi)) values)).
Proof.
  pose proof (histogram_init_sound nb lo hi h0 Hnb Hinit) as H0.
  rewrite (histogram_fold_total values 0 h0 ltac:(lia) ltac:(lia) H0).
  unfold histogram_init in Hinit.
  destruct ((if nb <? HISTOGRAM_MAX_BINS then nb else HISTOGRAM_MAX_BINS) =? 0);
    [discriminate |].
  match type of Hinit with
  | Some ?r = _ => assert (E : h0 = r) by congruence
  end.
  rewrite E. unfold total_samples, min_val, max_val. reflexivity.
Qed.

Lemma histogram_counts_values_in_range_witness :
  exists h0,
    histogram_init 4 0 (INT_TO_FIXED 4) = Some h0 /\
    total_samples
      (fold_left histogram_add [-1; 0; INT_TO_FIXED 2; INT_TO_FIXED 5] h0)
    = 2.
Proof.
  eexists. split; [reflexivity |].
  rewrite (histogram_counts_values_in_range 4 0 (INT_TO_FIXED 4)).
  - reflexivity.
  - unfold is_u16. lia.
  - reflexivity.
  - cbn. lia.
Defined.

Lemma zsum_firstn_le (l : list Z) :
  Forall (fun b => 0 <= b) l ->
  forall k, 0 <= zsum (firstn k l) <= zsum l.
Proof.
  unfold zsum. induction 1 as [| b t Hb Ht IH]; intros [| k];
    cbn [firstn fold_right]; try lia.
  - specialize (IH 0%nat). cbn in IH. lia.
  - specialize (IH k). lia.
Qed.

Lemma percentile_scan_spec (k : nat) :
  forall i cumulative target l,
    Forall (fun b => 0 <= b) l ->
    0 <= cumulative -> cumulative + zsum l < 4294967296 ->
    (k <= length l)%nat ->
    match percentile_scan k i cumulative target l with
    | Some r =>
        i <= r < i + Z.of_nat k /\
        target <= cumulative + zsum (firstn (Z.to_nat (r - i) + 1) l) /\
        forall j, i <= j < r ->
                  cumulative + zsum (firstn (Z.to_nat (j - i) + 1) l) < target
    | None =>
        forall j, i <= j < i + Z.of_nat k ->
                  cumulative + zsum (firstn (Z.to_nat (j - i) + 1) l) < target
    end.
Proof.
  induction k as [| k IH]; intros i cumulative target l Hpos Hc Hsum Hlen.
  - cbn [percentile_scan]. intros j Hj. lia.
  - destruct l as [| b t]; [cbn in Hlen; lia |].
    inversion Hpos as [| ? ? Hb Ht]; subst.
    cbn [percentile_scan]. cbn [length] in Hlen.
    pose proof (zsum_firstn_le t Ht 0%nat) as Hz.
    assert (Ezs : zsum (b :: t) = b + zsum t) by reflexivity.
    rewrite Ezs in Hsum. cbn [firstn] in Hz.
    rewrite (u32_small (cumulative + b)) by lia.
    assert (Estep : forall d, (0 <= d)%Z ->
              cumulative + zsum (firstn (Z.to_nat d + 1) (b :: t))
              = cumulative + b + zsum (firstn (Z.to_nat d) t)).
    { intros d Hd. rewrite Nat.add_1_r. cbn [firstn]. unfold zsum.
      cbn [fold_right]. lia. }
    destruct (Z.geb_spec (cumulative + b) target) as [Hge | Hlt].
    + split; [lia |]. split.
      * rewrite Z.sub_diag. cbn [Z.to_nat Nat.add firstn]. unfold zsum.
        cbn [fold_right]. lia.
      * intros j Hj. lia.
    + specialize (IH (i + 1) (cumulative + b) target t Ht ltac:(lia)
                     ltac:(lia) ltac:(lia)).
      destruct (percentile_scan k (i + 1) (cumulative + b) target t) as [r |].
      * destruct IH as (Hr & Hreach & Hbelow).
        split; [lia |]. split.
        -- rewrite Estep by lia.
           replace (Z.to_nat (r - i)) with (Z.to_nat (r - (i + 1)) + 1)%nat
             by lia. exact Hreach.
        -- intros j Hj. destruct (Z.eq_dec j i) as [-> | NE].
           ++ rewrite Z.sub_diag. cbn [Z.to_nat Nat.add firstn]. unfold zsum.
              cbn [fold_right]. lia.
           ++ rewrite Estep by lia.
              replace (Z.to_nat (j - i)) with (Z.to_nat (j - (i + 1)) + 1)%nat
                by lia. apply Hbelow. lia.
      * intros j Hj. destruct (Z.eq_dec j i) as [-> | NE].
        -- rewrite Z.sub_diag. cbn [Z.to_nat Nat.add firstn]. unfold zsum.
           cbn [fold_right]. lia.
        -- rewrite Estep by lia.
           replace (Z.to_nat (j - i)) with (Z.to_nat (j - (i + 1)) + 1)%nat
             by lia. apply IH. lia.
Qed.

(** [histogram_get_percentile] returns a valid bin index, and that bin is
    the first one at which the cumulative count reaches the target
    [total_samples * percentile / 100]; when no bin reaches it, the last
    bin is returned. *)
Theorem histogram_percentile_first_bin_reaching_target
  (hist : Histogram_t) (percentile : Z)
  (Hnb : 1 <= num_bins hist <= Z.of_nat (length (bins hist)))
  (Hu16 : num_bins hist < 65536)
  (Hpos : Forall (fun b => 0 <= b) (bins hist))
  (Hsum : zsum (bins hist) < 4294967296) :
  let r := histogram_get_percentile hist percentile in
  let target := u32 (total_samples hist * percentile) / 100 in
  0 <= r < num_bins hist /\
  (forall j, 0 <= j < r ->
             zsum (firstn (Z.to_nat j + 1) (bins hist)) < target) /\
  (target <= zsum (firstn (Z.to_nat r + 1) (bins hist))
   \/ r = num_bins hist - 1).
Proof.
  cbv zeta. unfold histogram_get_percentile.
  set (target := u32 (total_samples hist * percentile) / 100).
  pose proof (percentile_scan_spec (Z.to_nat (num_bins hist)) 0 0 target
                (bins hist) Hpos ltac:(lia) ltac:(lia) ltac:(lia)) as S.
  destruct (percentile_scan (Z.to_nat (num_bins hist)) 0 0 target (bins hist))
    as [r |].
  - destruct S as (Hr & Hreach & Hbelow).
    rewrite Z.sub_0_r in Hreach. split; [lia |]. split.
    + intros j Hj. specialize (Hbelow j Hj). rewrite Z.sub_0_r in Hbelow. lia.
    + left. lia.
  - rewrite u16_small by (unfold is_u16; lia).
    split; [lia |]. split.
    + intros j Hj. specialize (S j ltac:(lia)). rewrite Z.sub_0_r in S. lia.
    + right. reflexivity.
Qed.

Lemma histogram_percentile_first_bin_reaching_target_witness :
  let hist := mkHistogram [2; 1; 0; 5] 4 0 (INT_TO_FIXED 4) FIXED_ONE 8 3 5 in
  histogram_get_percentile hist 50 = 3.
Proof.
  intros hist.
  assert (Hnb : 1 <= num_bins hist <= Z.of_nat (length (bins hist)))
    by (cbn; lia).
  assert (Hu16 : num_bins hist < 65536) by (cbn; lia).
  assert (Hpos : Forall (fun b => 0 <= b) (bins hist))
    by (cbn; repeat constructor; lia).
  assert (Hsum : zsum (bins hist) < 4294967296) by (cbn; lia).
  pose proof (histogram_percentile_first_bin_reaching_target
                hist 50 Hnb Hu16 Hpos Hsum) as H.
  vm_compute. reflexivity.
Defined.
